(** * ai-gym: PPO training core (algorithms/dataset.py, algorithms/losses.py,
    model.py)

    A shallow embedding of the experience datasets, of the loss functions and
    of the two networks, and the properties the specification states about
    them.

    Numbers.  A tensor entry or a Python float is a [float]: a real number or
    one of the IEEE-754 special values (+inf, -inf, NaN).  The special values
    follow the IEEE rules (inf - inf, 0 * inf, 0 / 0 are NaN, log 0 is -inf,
    ...); finite values are exact reals, so rounding, overflow to infinity and
    the sign of zero are outside the model.

    Errors.  A Python call that may raise is a function into [result].

    Tensors.  A tensor is its shape and its entries in row-major order, as
    torch stores a contiguous tensor; binary operations broadcast as torch
    does and raise on shapes that do not broadcast. *)

From Stdlib Require Import Reals Lra Lia ZArith List Bool PeanoNat.
Import ListNotations.

Set Implicit Arguments.

(* ===================================================================== *)
(** ** Floating-point values *)
(* ===================================================================== *)

Inductive float : Type :=
| Fin (r : R)
| PInf
| NInf
| NaN.

Coercion Fin : R >-> float.

Module Float.

Local Open Scope R_scope.

(** Sign of a real, as a [comparison] with zero. *)
Definition Rsign (r : R) : comparison :=
  match total_order_T r 0 with
  | inleft (left _) => Lt
  | inleft (right _) => Eq
  | inright _ => Gt
  end.

Definition sign_mul (a b : comparison) : comparison :=
  match a, b with
  | Eq, _ | _, Eq => Eq
  | Lt, Lt | Gt, Gt => Gt
  | _, _ => Lt
  end.

(** The infinity of a given sign; a zero sign stands for an invalid
    operation (0 * inf, 0 / 0). *)
Definition inf_of (s : comparison) : float :=
  match s with Gt => PInf | Lt => NInf | Eq => NaN end.

Definition sign (x : float) : comparison :=
  match x with
  | Fin r => Rsign r
  | PInf => Gt
  | NInf => Lt
  | NaN => Eq
  end.

Definition is_finite (x : float) : bool :=
  match x with Fin _ => true | _ => false end.

Definition is_nan (x : float) : bool :=
  match x with NaN => true | _ => false end.

Definition neg (x : float) : float :=
  match x with
  | Fin r => Fin (- r)
  | PInf => NInf
  | NInf => PInf
  | NaN => NaN
  end.

Definition add (x y : float) : float :=
  match x, y with
  | Fin a, Fin b => Fin (a + b)
  | NaN, _ | _, NaN => NaN
  | PInf, NInf | NInf, PInf => NaN
  | PInf, _ | _, PInf => PInf
  | NInf, _ | _, NInf => NInf
  end.

Definition sub (x y : float) : float := add x (neg y).

Definition mul (x y : float) : float :=
  match x, y with
  | Fin a, Fin b => Fin (a * b)
  | NaN, _ | _, NaN => NaN
  | _, _ => inf_of (sign_mul (sign x) (sign y))
  end.

Definition div (x y : float) : float :=
  match x, y with
  | NaN, _ | _, NaN => NaN
  | Fin a, Fin b =>
      match Rsign b with
      | Eq => inf_of (Rsign a)
      | _ => Fin (a / b)
      end
  | Fin _, _ => Fin 0
  | _, Fin b =>
      match Rsign b with
      | Lt => neg x
      | _ => x
      end
  | _, _ => NaN
  end.

Definition exp (x : float) : float :=
  match x with
  | Fin r => Fin (Rtrigo_def.exp r)
  | PInf => PInf
  | NInf => Fin 0
  | NaN => NaN
  end.

Definition log (x : float) : float :=
  match x with
  | Fin r =>
      match Rsign r with
      | Gt => Fin (ln r)
      | Eq => NInf
      | Lt => NaN
      end
  | PInf => PInf
  | NInf | NaN => NaN
  end.

Definition sqrt (x : float) : float :=
  match x with
  | Fin r =>
      match Rsign r with
      | Lt => NaN
      | _ => Fin (R_sqrt.sqrt r)
      end
  | PInf => PInf
  | NInf | NaN => NaN
  end.


(** [x <= y]; false as soon as one side is NaN. *)
Definition leb (x y : float) : bool :=
  match x, y with
  | NaN, _ | _, NaN => false
  | Fin a, Fin b => if Rle_dec a b then true else false
  | NInf, _ | _, PInf => true
  | _, _ => false
  end.

(** torch.max / torch.min of two tensors, entry by entry: NaN propagates. *)
Definition max (x y : float) : float :=
  match x, y with
  | NaN, _ | _, NaN => NaN
  | Fin a, Fin b => Fin (Rmax a b)
  | PInf, _ | _, PInf => PInf
  | NInf, z | z, NInf => z
  end.

Definition min (x y : float) : float :=
  match x, y with
  | NaN, _ | _, NaN => NaN
  | Fin a, Fin b => Fin (Rmin a b)
  | NInf, _ | _, NInf => NInf
  | PInf, z | z, PInf => z
  end.

(** torch.clamp(x, min=lo, max=hi) with Python-float bounds, either of which
    may be absent: min(max(x, lo), hi), NaN kept. *)
Definition clamp (lo hi : option R) (x : float) : float :=
  let y := match lo with Some l => max x (Fin l) | None => x end in
  match hi with Some h => min y (Fin h) | None => y end.

(** Sum of the entries, accumulated from 0. *)
Definition sum (l : list float) : float := fold_left add l (Fin 0).

(** torch.mean over all entries: the sum divided by the number of entries
    (NaN on no entry at all, 0 / 0). *)
Definition mean (l : list float) : float :=
  div (sum l) (Fin (INR (length l))).

End Float.

(* ===================================================================== *)
(** ** Floating-point formats *)
(* ===================================================================== *)

(** A floating-point format: how the real result of an operation on finite
    values is stored. *)
Record format : Type := mkFormat { round : R -> float }.

(** No rounding at all: the arithmetic of the [Float] module. *)
Definition exact : format := mkFormat Fin.

Module IEEE.

Section Rounding.

(** [prec] bits of precision, normal exponents from [emin] up, overflow from
    2^[emax] on. *)
Variables prec emin emax : Z.

Local Open Scope R_scope.

(** The exponent of the binade of [x]: 2^mag <= |x| < 2^(mag + 1). *)
Definition mag (x : R) : Z := Int_part (ln (Rabs x) / ln 2).

(** The spacing of the stored values around [x]; below 2^[emin] the values
    are subnormal and equally spaced. *)
Definition quantum (x : R) : R := powerRZ 2 (Z.max (mag x) emin - (prec - 1)).

(** The integer nearest to [t], the even one of two at equal distance. *)
Definition nearest_even (t : R) : Z :=
  let f := Int_part t in
  match total_order_T (t - IZR f) (1 / 2) with
  | inleft (left _) => f
  | inleft (right _) => if Z.even f then f else (f + 1)%Z
  | inright _ => (f + 1)%Z
  end.

(** [x] brought to a multiple of its quantum. *)
Definition scaled (x : R) : R := IZR (nearest_even (x / quantum x)) * quantum x.

(** Round to nearest, ties to even; a result of magnitude 2^[emax] or more
    is the infinity of the sign. *)
Definition round_to (x : R) : float :=
  if Rle_dec (powerRZ 2 emax) (Rabs (scaled x))
  then Float.inf_of (Float.Rsign x)
  else Fin (scaled x).

End Rounding.

(** IEEE 754 binary32, the default dtype of torch: 24 bits of precision,
    least normal value 2^-126, least subnormal 2^-149, overflow from 2^128
    on. *)
Definition binary32 : format := mkFormat (round_to 24 (-126) 128).

End IEEE.

(** What the properties below use of a format: zero and one are stored as
    they are, rounding keeps the order (so also the sign), a stored value is
    not rounded again, and the format is symmetric. *)
Record ieee (fmt : format) : Prop := {
  round_zero : round fmt 0 = Fin 0;
  round_one : round fmt 1 = Fin 1;
  round_mono : forall x y : R,
    (x <= y)%R -> Float.leb (round fmt x) (round fmt y) = true;
  round_idem : forall x r : R, round fmt x = Fin r -> round fmt r = Fin r;
  round_opp : forall x : R, round fmt (- x) = Float.neg (round fmt x)
}.

(** The operations of [Float] with every finite result stored in a format
    (negation, absolute value, comparison, maximum and minimum are exact in
    any format and are those of [Float]).  The transcendental functions are
    taken as correctly rounded. *)
Module FP.

Section Ops.

Variable fmt : format.

Local Open Scope R_scope.

Definition add (x y : float) : float :=
  match x, y with
  | Fin a, Fin b => round fmt (a + b)
  | NaN, _ | _, NaN => NaN
  | PInf, NInf | NInf, PInf => NaN
  | PInf, _ | _, PInf => PInf
  | NInf, _ | _, NInf => NInf
  end.

Definition sub (x y : float) : float := add x (Float.neg y).

Definition mul (x y : float) : float :=
  match x, y with
  | Fin a, Fin b => round fmt (a * b)
  | NaN, _ | _, NaN => NaN
  | _, _ => Float.inf_of (Float.sign_mul (Float.sign x) (Float.sign y))
  end.

Definition div (x y : float) : float :=
  match x, y with
  | NaN, _ | _, NaN => NaN
  | Fin a, Fin b =>
      match Float.Rsign b with
      | Eq => Float.inf_of (Float.Rsign a)
      | _ => round fmt (a / b)
      end
  | Fin _, _ => Fin 0
  | _, Fin b =>
      match Float.Rsign b with
      | Lt => Float.neg x
      | _ => x
      end
  | _, _ => NaN
  end.

Definition exp (x : float) : float :=
  match x with
  | Fin r => round fmt (Rtrigo_def.exp r)
  | PInf => PInf
  | NInf => Fin 0
  | NaN => NaN
  end.

Definition log (x : float) : float :=
  match x with
  | Fin r =>
      match Float.Rsign r with
      | Gt => round fmt (ln r)
      | Eq => NInf
      | Lt => NaN
      end
  | PInf => PInf
  | NInf | NaN => NaN
  end.

Definition sqrt (x : float) : float :=
  match x with
  | Fin r =>
      match Float.Rsign r with
      | Lt => NaN
      | _ => round fmt (R_sqrt.sqrt r)
      end
  | PInf => PInf
  | NInf | NaN => NaN
  end.

(** torch.clamp with Python-float bounds: a bound is cast to the dtype of
    the tensor before it is compared. *)
Definition clamp (lo hi : option R) (x : float) : float :=
  let y := match lo with Some l => Float.max x (round fmt l) | None => x end in
  match hi with Some h => Float.min y (round fmt h) | None => y end.

(** Sum of the entries, accumulated from 0 in list order. *)
Definition sum (l : list float) : float := fold_left add l (Fin 0).

(** The sum divided by the number of entries, itself cast to the dtype. *)
Definition mean (l : list float) : float :=
  div (sum l) (round fmt (INR (length l))).

End Ops.

End FP.

(* ===================================================================== *)
(** ** Python results *)
(* ===================================================================== *)

(** The exceptions the modelled code can raise.  [RuntimeError] is what torch
    (and einops) raise on shapes that do not fit. *)
Inductive exn : Type :=
| ValueError
| IndexError
| TypeError
| RuntimeError
| ZeroDivisionError
| AttributeError.

Inductive result (A : Type) : Type :=
| Ok (a : A)
| Raise (e : exn).

Arguments Ok {A} a.
Arguments Raise {A} e.

Definition bind {A B} (m : result A) (k : A -> result B) : result B :=
  match m with
  | Ok a => k a
  | Raise e => Raise e
  end.

Notation "x <- m ;; k" := (bind m (fun x => k))
  (at level 61, m at next level, right associativity).
Notation "' p <- m ;; k" := (bind m (fun x => match x with p => k end))
  (at level 61, p pattern, m at next level, right associativity).

Definition is_ok {A} (m : result A) : bool :=
  match m with Ok _ => true | Raise _ => false end.

(** [seq[idx]] on a Python list or tuple, or on the first dimension of a
    tensor: a negative index counts from the end, anything outside
    [-len, len) raises IndexError. *)
Definition py_index {A} (l : list A) (idx : Z) : result A :=
  let n := Z.of_nat (length l) in
  let i := if (idx <? 0)%Z then (idx + n)%Z else idx in
  if ((0 <=? i) && (i <? n))%Z
  then match nth_error l (Z.to_nat i) with
       | Some a => Ok a
       | None => Raise IndexError
       end
  else Raise IndexError.

(* ===================================================================== *)
(** ** Tensors (the part of torch the code uses) *)
(* ===================================================================== *)

Section ListOps.

Context {A B C : Type}.

Fixpoint zip_with (f : A -> B -> C) (l : list A) (m : list B) : list C :=
  match l, m with
  | a :: l', b :: m' => f a b :: zip_with f l' m'
  | _, _ => []
  end.

(** The first [n] consecutive pieces of [k] entries. *)
Fixpoint chunks (n k : nat) (d : list A) : list (list A) :=
  match n with
  | O => []
  | S n' => firstn k d :: chunks n' k (skipn k d)
  end.

(** Entries of [vals] at the positions where [mask] is true, in order. *)
Fixpoint select (vals : list A) (mask : list bool) : list A :=
  match vals, mask with
  | v :: vals', b :: mask' =>
      if b then v :: select vals' mask' else select vals' mask'
  | _, _ => []
  end.

End ListOps.

Module torch.

Record Tensor : Type := mkTensor { shape : list nat; data : list float }.

Definition numel (s : list nat) : nat := fold_right Nat.mul 1 s.

Definition ndim (t : Tensor) : nat := length (shape t).

(** A tensor holds as many entries as its shape says. *)
Definition wf (t : Tensor) : Prop := length (data t) = numel (shape t).

Definition scalar (x : float) : Tensor := mkTensor [] [x].

(** *** Broadcasting *)

(** Shape [s] with size-1 dimensions in front, up to rank [r]. *)
Definition pad (r : nat) (s : list nat) : list nat :=
  repeat 1 (r - length s) ++ s.

Definition bdim (x y : nat) : option nat :=
  if x =? y then Some x
  else if x =? 1 then Some y
  else if y =? 1 then Some x
  else None.

Fixpoint bdims (a b : list nat) : option (list nat) :=
  match a, b with
  | [], [] => Some []
  | x :: a', y :: b' =>
      match bdim x y, bdims a' b' with
      | Some d, Some ds => Some (d :: ds)
      | _, _ => None
      end
  | _, _ => None
  end.

Definition broadcast_shapes (a b : list nat) : option (list nat) :=
  let r := Nat.max (length a) (length b) in
  bdims (pad r a) (pad r b).

(** Entries of a tensor of shape [src] read at shape [dst] (same rank): a
    dimension of size 1 is repeated, any other is kept. *)
Fixpoint expand {A} (src dst : list nat) (d : list A) : list A :=
  match src, dst with
  | n :: src', m :: dst' =>
      if n =? m
      then concat (map (expand src' dst') (chunks n (numel src') d))
      else concat (repeat (expand src' dst' d) m)
  | _, _ => d
  end.

Definition broadcast_to (t : Tensor) (s : list nat) : list float :=
  expand (pad (length s) (shape t)) s (data t).

Definition binop (f : float -> float -> float) (a b : Tensor) : result Tensor :=
  match broadcast_shapes (shape a) (shape b) with
  | Some s => Ok (mkTensor s (zip_with f (broadcast_to a s) (broadcast_to b s)))
  | None => Raise RuntimeError
  end.

Definition unop (f : float -> float) (a : Tensor) : Tensor :=
  mkTensor (shape a) (map f (data a)).

(** *** Entry-wise operations *)

Definition add := binop Float.add.
Definition sub := binop Float.sub.
Definition mul := binop Float.mul.
Definition min := binop Float.min.
Definition max := binop Float.max.

Definition neg := unop Float.neg.
Definition exp := unop Float.exp.
Definition log := unop Float.log.
Definition clamp (lo hi : option R) := unop (Float.clamp lo hi).
(** [t ** 2] *)
Definition pow2 := unop (fun x => Float.mul x x).

(** *** Reductions (a 0-dimensional result is its single entry) *)

Definition sum (t : Tensor) : float := Float.sum (data t).
Definition mean (t : Tensor) : float := Float.mean (data t).

(** *** Shape operations *)

(** [t.unsqueeze(-1)] *)
Definition unsqueeze_last (t : Tensor) : Tensor :=
  mkTensor (shape t ++ [1]) (data t).

(** [t.flatten()] *)
Definition flatten (t : Tensor) : Tensor :=
  mkTensor [numel (shape t)] (data t).

Definition last_dim (s : list nat) : nat := last s 1.

(** The entries grouped along the last dimension. *)
Definition rows (t : Tensor) : list (list float) :=
  chunks (numel (removelast (shape t))) (last_dim (shape t)) (data t).

(** [*_, row, col = t.shape] *)
Definition last_two (s : list nat) : option (nat * nat) :=
  match rev s with
  | col :: row :: _ => Some (row, col)
  | _ => None
  end.

(** [t.reshape(-1, row, col)] and [t.view((-1, c))]: the free dimension is
    inferred from the number of entries; torch refuses a size that does not
    divide it, and a zero-sized rest (the free dimension is then ambiguous or
    the sizes cannot match). *)
Definition view_free (t : Tensor) (rest : list nat) : result Tensor :=
  let k := numel rest in
  let n := numel (shape t) in
  if k =? 0 then Raise RuntimeError
  else if n mod k =? 0 then Ok (mkTensor (n / k :: rest) (data t))
  else Raise RuntimeError.

Fixpoint shape_eqb (a b : list nat) : bool :=
  match a, b with
  | [], [] => true
  | x :: a', y :: b' => (x =? y) && shape_eqb a' b'
  | _, _ => false
  end.

(** [torch.stack(ts)]: a new leading dimension; the list must be non-empty
    and the shapes equal. *)
Definition stack (ts : list Tensor) : result Tensor :=
  match ts with
  | [] => Raise RuntimeError
  | t0 :: _ =>
      if forallb (fun t => shape_eqb (shape t) (shape t0)) ts
      then Ok (mkTensor (length ts :: shape t0) (concat (map data ts)))
      else Raise RuntimeError
  end.

(** [t[idx]] with an integer index: the [idx]-th slice along the first
    dimension; a 0-dimensional tensor cannot be indexed. *)
Definition index (t : Tensor) (idx : Z) : result Tensor :=
  match shape t with
  | [] => Raise IndexError
  | n :: s =>
      d <- py_index (chunks n (numel s) (data t)) idx ;;
      Ok (mkTensor s d)
  end.

(** [len(t)] *)
Definition len (t : Tensor) : result Z :=
  match shape t with
  | [] => Raise TypeError
  | n :: _ => Ok (Z.of_nat n)
  end.

(** [t.t()]: transposes a matrix, leaves a tensor of fewer dimensions as it
    is, and refuses more than two. *)
Definition transpose (t : Tensor) : result Tensor :=
  match shape t with
  | [n; d] =>
      let rs := chunks n d (data t) in
      Ok (mkTensor [d; n]
            (concat (map (fun j => map (fun r => nth j r NaN) rs) (seq 0 d))))
  | [] | [_] => Ok t
  | _ => Raise RuntimeError
  end.

(** *** Functions on the last dimension *)

(** softmax of one row: exp(x_i) / sum_j exp(x_j). *)
Definition softmax_row (r : list float) : list float :=
  let z := Float.sum (map Float.exp r) in
  map (fun x => Float.div (Float.exp x) z) r.

(** [t.softmax(dim=-1)] *)
Definition softmax (t : Tensor) : Tensor :=
  mkTensor (shape t) (concat (map softmax_row (rows t))).

(** Inner product of two rows. *)
Definition dot (u v : list float) : float := Float.sum (zip_with Float.mul u v).

(** Default [eps] of [torch.nn.functional.normalize]. *)
Definition normalize_eps : R := (1 / 1000000000000)%R.

(** One row of [F.normalize(t, dim=-1)]: v / max(||v||_2, eps). *)
Definition normalize_row (r : list float) : list float :=
  let n := Float.clamp (Some normalize_eps) None (Float.sqrt (dot r r)) in
  map (fun x => Float.div x n) r.

(** [F.normalize(t, dim=-1)] *)
Definition normalize (t : Tensor) : Tensor :=
  mkTensor (shape t) (concat (map normalize_row (rows t))).

(** [einsum(a, b, "i d, j d -> i j")]: both operands are matrices with the
    same number of columns. *)
Definition einsum_id_jd (a b : Tensor) : result Tensor :=
  match shape a, shape b with
  | [i; d], [j; d'] =>
      if d =? d'
      then Ok (mkTensor [i; j]
                 (concat (map (fun u => map (fun v => dot u v)
                                            (chunks j d (data b)))
                              (chunks i d (data a)))))
      else Raise RuntimeError
  | _, _ => Raise RuntimeError
  end.

(** A tensor of booleans (a mask). *)
Record BoolTensor : Type := mkBool { bshape : list nat; bdata : list bool }.

Definition eye_entries (n : nat) : list bool :=
  concat (map (fun i => map (fun j => i =? j) (seq 0 n)) (seq 0 n)).

(** [torch.eye(n, dtype=torch.bool)] *)
Definition eye (n : nat) : BoolTensor := mkBool [n; n] (eye_entries n).

(** [~mask] *)
Definition lnot (mask : BoolTensor) : BoolTensor :=
  mkBool (bshape mask) (map negb (bdata mask)).

(** [t[mask]] for a boolean mask, which must have the shape of [t]: the
    selected entries as a 1-dimensional tensor. *)
Definition masked_select (t : Tensor) (mask : BoolTensor) : result Tensor :=
  if shape_eqb (shape t) (bshape mask)
  then let d := select (data t) (bdata mask) in Ok (mkTensor [length d] d)
  else Raise IndexError.

(** A size of [src] either is the size of [dst] or is 1. *)
Definition expands_to (src dst : list nat) : Prop :=
  Forall2 (fun n m => n = m \/ n = 1) src dst.

(** *** The same operations in a floating-point format *)

Definition add_in (fmt : format) := binop (FP.add fmt).
Definition sub_in (fmt : format) := binop (FP.sub fmt).
Definition mul_in (fmt : format) := binop (FP.mul fmt).

Definition exp_in (fmt : format) := unop (FP.exp fmt).
Definition log_in (fmt : format) := unop (FP.log fmt).
Definition clamp_in (fmt : format) (lo hi : option R) := unop (FP.clamp fmt lo hi).
Definition pow2_in (fmt : format) := unop (fun x => FP.mul fmt x x).

Definition sum_in (fmt : format) (t : Tensor) : float := FP.sum fmt (data t).
Definition mean_in (fmt : format) (t : Tensor) : float := FP.mean fmt (data t).

Definition dot_in (fmt : format) (u v : list float) : float :=
  FP.sum fmt (zip_with (FP.mul fmt) u v).

Definition normalize_row_in (fmt : format) (r : list float) : list float :=
  let n := FP.clamp fmt (Some normalize_eps) None (FP.sqrt fmt (dot_in fmt r r)) in
  map (fun x => FP.div fmt x n) r.

Definition normalize_in (fmt : format) (t : Tensor) : Tensor :=
  mkTensor (shape t) (concat (map (normalize_row_in fmt) (rows t))).

Definition einsum_id_jd_in (fmt : format) (a b : Tensor) : result Tensor :=
  match shape a, shape b with
  | [i; d], [j; d'] =>
      if d =? d'
      then Ok (mkTensor [i; j]
                 (concat (map (fun u => map (fun v => dot_in fmt u v)
                                            (chunks j d (data b)))
                              (chunks i d (data a)))))
      else Raise RuntimeError
  | _, _ => Raise RuntimeError
  end.

End torch.

(* ===================================================================== *)
(** ** algorithms/losses.py *)
(* ===================================================================== *)

Module ClipActorLoss.

Record instance : Type := { eps : R }.

(** [ClipActorLoss(eps=0.2)] *)
Definition init (eps : R) : instance := {| eps := eps |}.

Definition forward (self : instance)
    (old_actions_log_probs new_actions_log_probs advantages : torch.Tensor)
    : result float :=
  d <- torch.sub new_actions_log_probs old_actions_log_probs ;;
  let ratio := torch.exp d in
  surrogate_1 <- torch.mul ratio (torch.unsqueeze_last advantages) ;;
  surrogate_2 <-
    torch.mul (torch.clamp (Some (1 - eps self)%R) (Some (1 + eps self)%R) ratio)
              (torch.unsqueeze_last advantages) ;;
  m <- torch.min surrogate_1 surrogate_2 ;;
  Ok (Float.neg (torch.mean m)).

(** [forward] with the arithmetic of the tensors in the format [fmt]; the
    bounds 1 - eps and 1 + eps are Python floats, cast when they meet the
    tensor. *)
Definition forward_in (fmt : format) (self : instance)
    (old_actions_log_probs new_actions_log_probs advantages : torch.Tensor)
    : result float :=
  d <- torch.sub_in fmt new_actions_log_probs old_actions_log_probs ;;
  let ratio := torch.exp_in fmt d in
  surrogate_1 <- torch.mul_in fmt ratio (torch.unsqueeze_last advantages) ;;
  surrogate_2 <-
    torch.mul_in fmt
      (torch.clamp_in fmt (Some (1 - eps self)%R) (Some (1 + eps self)%R) ratio)
      (torch.unsqueeze_last advantages) ;;
  m <- torch.min surrogate_1 surrogate_2 ;;
  Ok (Float.neg (torch.mean_in fmt m)).

End ClipActorLoss.

Module EntropyActorLoss.

Record instance : Type := { weight : R }.

(** [EntropyActorLoss(weight=0.01)] *)
Definition init (weight : R) : instance := {| weight := weight |}.

(** The distribution is known by the tensor its [entropy()] returns. *)
Definition forward (self : instance) (dist_entropy : torch.Tensor) : float :=
  Float.mul (Fin (- weight self)) (torch.mean dist_entropy).

End EntropyActorLoss.

Module ClipCriticLoss.

Record instance : Type := { eps : R }.

(** [ClipCriticLoss(eps=0.4)] *)
Definition init (eps : R) : instance := {| eps := eps |}.

Definition forward (self : instance) (old_values new_values returns : torch.Tensor)
    : result float :=
  d <- torch.sub new_values old_values ;;
  value_clipped <-
    torch.add old_values
              (torch.clamp (Some (- eps self)%R) (Some (eps self)) d) ;;
  d1 <- torch.sub value_clipped returns ;;
  let surrogate_1 := torch.pow2 d1 in
  d2 <- torch.sub new_values returns ;;
  let surrogate_2 := torch.pow2 d2 in
  m <- torch.max surrogate_1 surrogate_2 ;;
  Ok (Float.mul (Fin (1 / 2)) (torch.mean m)).

(** [forward] with the arithmetic of the tensors in the format [fmt]; the
    Python floats -eps, eps and 0.5 are cast when they meet a tensor. *)
Definition forward_in (fmt : format) (self : instance)
    (old_values new_values returns : torch.Tensor) : result float :=
  d <- torch.sub_in fmt new_values old_values ;;
  value_clipped <-
    torch.add_in fmt old_values
      (torch.clamp_in fmt (Some (- eps self)%R) (Some (eps self)) d) ;;
  d1 <- torch.sub_in fmt value_clipped returns ;;
  let surrogate_1 := torch.pow2_in fmt d1 in
  d2 <- torch.sub_in fmt new_values returns ;;
  let surrogate_2 := torch.pow2_in fmt d2 in
  m <- torch.max surrogate_1 surrogate_2 ;;
  Ok (FP.mul fmt (round fmt (1 / 2)) (torch.mean_in fmt m)).

End ClipCriticLoss.

Module SpectralEntropyLoss.

Record instance : Type := {
  eps : R;
  update_rate : Z;
  weight : R;
  t : Z  (* the call counter *)
}.

(** [SpectralEntropyLoss(weight=0.02, eps=1e-16, update_very=4)] *)
Definition init (weight eps : R) (update_very : Z) : instance :=
  {| eps := eps; update_rate := update_very; weight := weight; t := 1 |}.

Definition log (self : instance) (x : torch.Tensor) : torch.Tensor :=
  torch.log (torch.clamp (Some (eps self)) None x).

Definition entropy (self : instance) (prob : torch.Tensor) : result float :=
  p <- torch.mul (torch.neg prob) (log self prob) ;;
  Ok (torch.sum p).

(** [log] and [entropy] with the arithmetic of the tensors in the format
    [fmt]; the Python float eps is cast when it meets the tensor. *)
Definition log_in (fmt : format) (self : instance) (x : torch.Tensor)
    : torch.Tensor :=
  torch.log_in fmt (torch.clamp_in fmt (Some (eps self)) None x).

Definition entropy_in (fmt : format) (self : instance) (prob : torch.Tensor)
    : result float :=
  p <- torch.mul_in fmt (torch.neg prob) (log_in fmt self prob) ;;
  Ok (torch.sum_in fmt p).

(** The loop over [model.parameters()]; [svdvals] stands for
    [torch.linalg.svdvals]. *)
Fixpoint accumulate (svdvals : torch.Tensor -> result torch.Tensor) (self : instance)
    (parameters : list torch.Tensor) (loss : float) : result float :=
  match parameters with
  | [] => Ok loss
  | parameter :: rest =>
      if torch.ndim parameter <? 2 then accumulate svdvals self rest loss
      else
        match torch.last_two (torch.shape parameter) with
        | None => Raise ValueError
        | Some (row, col) =>
            parameter' <- torch.view_free parameter [row; col] ;;
            singular_values <- svdvals parameter' ;;
            let spectral_prob := torch.softmax singular_values in
            spectral_entropy <- entropy self spectral_prob ;;
            accumulate svdvals self rest (Float.add loss spectral_entropy)
        end
  end.

(** [self.t % self.update_rate], which raises on a zero divisor. *)
Definition py_mod (a b : Z) : result Z :=
  if (b =? 0)%Z then Raise ZeroDivisionError else Ok (a mod b)%Z.

(** [self.t += 1] *)
Definition tick (self : instance) : instance :=
  {| eps := eps self; update_rate := update_rate self;
     weight := weight self; t := (t self + 1)%Z |}.

(** One call: the loss returned and the instance after the call. *)
Definition forward (svdvals : torch.Tensor -> result torch.Tensor) (self : instance)
    (model : list torch.Tensor) : result (float * instance) :=
  loss <- accumulate svdvals self model (Fin 0) ;;
  m <- py_mod (t self) (update_rate self) ;;
  let loss := if negb (m =? 0)%Z then Float.mul loss (Fin 0) else loss in
  Ok (Float.mul (Fin (weight self)) loss, tick self).

(** [n] consecutive calls on one instance and one model: the losses in call
    order and the instance after the last call. *)
Fixpoint calls (n : nat) (svdvals : torch.Tensor -> result torch.Tensor)
    (self : instance) (model : list torch.Tensor) : result (list float * instance) :=
  match n with
  | O => Ok ([], self)
  | S n' =>
      '(loss, self') <- forward svdvals self model ;;
      '(losses, self'') <- calls n' svdvals self' model ;;
      Ok (loss :: losses, self'')
  end.

End SpectralEntropyLoss.

Module KLDivLoss.

Record instance : Type := { weight : R }.

(** [KLDivLoss(weight=0.01)] *)
Definition init (weight : R) : instance := {| weight := weight |}.

(** [torch.xlogy(a, b)]: NaN where [b] is NaN, 0 where [a] is 0, and
    [a * log b] elsewhere. *)
Definition xlogy (a b : float) : float :=
  match b, a with
  | NaN, _ => NaN
  | _, Fin r => match Float.Rsign r with Eq => Fin 0 | _ => Float.mul a (Float.log b) end
  | _, _ => Float.mul a (Float.log b)
  end.

(** [torch.nn.functional.kl_div(input, target, reduction="batchmean")] for a
    target that is not in log space: the sum of
    [xlogy(target, target) - target * input] over all entries, divided by
    the size of the first dimension of [input] when it has one. *)
Definition kl_div_batchmean (input target : torch.Tensor) : result float :=
  a <- torch.binop xlogy target target ;;
  b <- torch.mul target input ;;
  pointwise <- torch.sub a b ;;
  let reduced := torch.sum pointwise in
  match torch.shape input with
  | [] => Ok reduced
  | n :: _ => Ok (Float.div reduced (Fin (INR n)))
  end.

(** The [.mean()] of the 0-dimensional result is the result itself. *)
Definition forward (self : instance) (x y : torch.Tensor) : result float :=
  kl <- kl_div_batchmean x y ;;
  Ok (Float.mul (Fin (weight self)) (Float.mean [kl])).

End KLDivLoss.

Module Simba.

(** What [simba_orthogonal_loss] reads of a model: its modules, which of
    them are instances of [simba_module], their [layers], and for each layer
    the weights of the sub-layers of [layer.branch] ([None] for a sub-layer
    without a weight). *)
Record Layer : Type := { branch : list (option torch.Tensor) }.

Record Module_ : Type := { is_simba : bool; layers : list Layer }.

(** [sub_layer.weight] *)
Definition weight_of (sub_layer : option torch.Tensor) : result torch.Tensor :=
  match sub_layer with
  | Some w => Ok w
  | None => Raise AttributeError
  end.

(** The body of the loop over [weights]: the orthogonality loss of one
    weight matrix. *)
Definition orthogonal_loss (weight : torch.Tensor) : result float :=
  let norm_weight := torch.normalize weight in
  cosine_dist <- torch.einsum_id_jd norm_weight norm_weight ;;
  let eye := torch.eye (torch.last_dim (torch.shape cosine_dist)) in
  off_diagonal <- torch.masked_select cosine_dist (torch.lnot eye) ;;
  Ok (torch.mean off_diagonal).

(** [orthogonal_loss] with the arithmetic of the tensors in the format
    [fmt]. *)
Definition orthogonal_loss_in (fmt : format) (weight : torch.Tensor)
    : result float :=
  let norm_weight := torch.normalize_in fmt weight in
  cosine_dist <- torch.einsum_id_jd_in fmt norm_weight norm_weight ;;
  let eye := torch.eye (torch.last_dim (torch.shape cosine_dist)) in
  off_diagonal <- torch.masked_select cosine_dist (torch.lnot eye) ;;
  Ok (torch.mean_in fmt off_diagonal).

Fixpoint collect_weights (ls : list Layer) : result (list torch.Tensor) :=
  match ls with
  | [] => Ok []
  | layer :: rest =>
      linear_in <- py_index (branch layer) 1 ;;
      linear_out <- py_index (branch layer) 3 ;;
      w_in <- weight_of linear_in ;;
      w_in_t <- torch.transpose w_in ;;
      w_out <- weight_of linear_out ;;
      ws <- collect_weights rest ;;
      Ok (w_in_t :: w_out :: ws)
  end.

Fixpoint add_losses (weights : list torch.Tensor) (loss : float) : result float :=
  match weights with
  | [] => Ok loss
  | weight :: rest =>
      l <- orthogonal_loss weight ;;
      add_losses rest (Float.add loss l)
  end.

Fixpoint simba_orthogonal_loss_from (modules : list Module_) (loss : float)
    : result float :=
  match modules with
  | [] => Ok loss
  | module :: rest =>
      if is_simba module
      then
        weights <- collect_weights (layers module) ;;
        loss' <- add_losses weights loss ;;
        simba_orthogonal_loss_from rest loss'
      else simba_orthogonal_loss_from rest loss
  end.

Definition simba_orthogonal_loss (modules : list Module_) : result float :=
  simba_orthogonal_loss_from modules (Fin 0).

End Simba.

(* ===================================================================== *)
(** ** algorithms/dataset.py *)
(* ===================================================================== *)

(** [Memory = namedtuple("Memory", [state, action, action_log_prob, reward,
    done, value])] *)
Record Memory : Type := {
  state : torch.Tensor;
  action : torch.Tensor;
  action_log_prob : torch.Tensor;
  reward : float;
  done : bool;
  value : float
}.

(** [MemoryAux = namedtuple("MemoryAux", [state, actions, value])] *)
Record MemoryAux : Type := {
  aux_state : torch.Tensor;
  aux_actions : torch.Tensor;
  aux_value : torch.Tensor
}.

Module utils.

(** algorithms/utils.py is not among the source files; its two functions
    are written from the specification (section 4.1). *)

Section GAE.

(** Discount factor and trace-decay factor: the defaults of
    [get_gae_advantages], which the dataset relies on. *)
Variables gamma lam : R.

(** [1 - done] *)
Definition not_done (t : Memory) : float :=
  Fin (if done t then 0 else 1)%R.

(** Modelled from the spec: the body of algorithms/utils.py's
    [get_gae_advantages] is missing; the spec has it walk the episode in
    reverse order with a running accumulator [gae], with
    [delta = reward + gamma * next_value * (1 - done) - value] and
    [gae = delta + gamma * lam * (1 - done) * gae], [next_value] being the
    value of the following transition or 0 at the last step.  The result
    is [(gae, next_value, advantages)] after the steps of [episode], the
    advantages in chronological order. *)
Fixpoint gae_steps (episode : list Memory) : float * float * list float :=
  match episode with
  | [] => (Fin 0, Fin 0, [])
  | t :: rest =>
      let '(gae, next_value, advantages) := gae_steps rest in
      let delta :=
        Float.sub (Float.add (reward t)
                     (Float.mul (Float.mul (Fin gamma) next_value) (not_done t)))
              (value t) in
      let gae' :=
        Float.add delta (Float.mul (Float.mul (Float.mul (Fin gamma) (Fin lam)) (not_done t)) gae) in
      (gae', value t, gae' :: advantages)
  end.

(** Modelled from the spec: algorithms/utils.py's [get_gae_advantages],
    which is missing: an ordered sequence of advantages, of the length of
    the episode, in forward chronological order. *)
Definition get_gae_advantages (episode : list Memory) : list float :=
  snd (gae_steps episode).

End GAE.

(** Modelled from the spec: algorithms/utils.py's [get_returns], which is
    missing: [return[i] = value[i] + advantage[i]], entry by entry, failing
    with a shape/length error when the lengths differ. *)
Definition get_returns (values advantages : list float) : result (list float) :=
  if length values =? length advantages
  then Ok (zip_with Float.add values advantages)
  else Raise RuntimeError.

End utils.

Module ExperienceDataset.

Record instance : Type := {
  advantages : list float;
  episodes : list Memory;
  states : list torch.Tensor;
  actions : list torch.Tensor;
  actions_log_prob : list torch.Tensor;
  rewards : list float;
  done_ : list bool;
  values : list float;
  returns : list float
}.

(** The item type of [__getitem__]. *)
Definition item : Type :=
  torch.Tensor * torch.Tensor * torch.Tensor * float * bool * float * float * float.

(** [zip] over the unpacked [self.episodes], unpacked into six names: one
    tuple per field; with no transition at all [zip] yields nothing and the
    unpacking raises ValueError. *)
Definition unzip6 (episodes : list Memory)
    : result (list torch.Tensor * list torch.Tensor * list torch.Tensor
              * list float * list bool * list float) :=
  match episodes with
  | [] => Raise ValueError
  | _ => Ok (map state episodes, map action episodes,
             map action_log_prob episodes, map reward episodes,
             map done episodes, map value episodes)
  end.

(** The loop of [__init__]: [self.advantages] and [self.episodes] extended
    episode by episode. *)
Fixpoint extend_all (gamma lam : R) (episodes : list (list Memory))
    (advantages : list float) (flat : list Memory)
    : list float * list Memory :=
  match episodes with
  | [] => (advantages, flat)
  | e :: rest =>
      extend_all gamma lam rest
        (advantages ++ utils.get_gae_advantages gamma lam e) (flat ++ e)
  end.

Definition init (gamma lam : R) (episodes : list (list Memory)) : result instance :=
  let '(advantages, flat) := extend_all gamma lam episodes [] [] in
  '(states, actions, actions_log_prob, rewards, done, values) <- unzip6 flat ;;
  returns <- utils.get_returns values advantages ;;
  Ok {| advantages := advantages; episodes := flat; states := states;
        actions := actions; actions_log_prob := actions_log_prob;
        rewards := rewards; done_ := done; values := values;
        returns := returns |}.

Definition len (self : instance) : Z := Z.of_nat (length (states self)).

Definition getitem (self : instance) (idx : Z) : result item :=
  s <- py_index (states self) idx ;;
  a <- py_index (actions self) idx ;;
  lp <- py_index (actions_log_prob self) idx ;;
  r <- py_index (rewards self) idx ;;
  d <- py_index (done_ self) idx ;;
  v <- py_index (values self) idx ;;
  adv <- py_index (advantages self) idx ;;
  ret <- py_index (returns self) idx ;;
  Ok (torch.flatten s, torch.flatten a, torch.flatten lp, r, d, v, adv, ret).

End ExperienceDataset.

Module ExperienceAuxDataset.

Record instance : Type := {
  episodes_aux : list MemoryAux;
  states : torch.Tensor;
  returns : torch.Tensor;
  old_values : torch.Tensor;
  action_log_probs : option torch.Tensor  (* [None] is the default *)
}.

Definition item : Type :=
  torch.Tensor * torch.Tensor * torch.Tensor * torch.Tensor.

(** [zip] over the unpacked [episodes_aux], unpacked into three names; with
    no record at all the unpacking raises ValueError. *)
Definition unzip3 (episodes_aux : list MemoryAux)
    : result (list torch.Tensor * list torch.Tensor * list torch.Tensor) :=
  match episodes_aux with
  | [] => Raise ValueError
  | _ => Ok (map aux_state episodes_aux, map aux_actions episodes_aux,
             map aux_value episodes_aux)
  end.

Definition init (episodes_aux : list MemoryAux)
    (action_log_probs : option torch.Tensor) : result instance :=
  '(states, returns, old_values) <- unzip3 episodes_aux ;;
  states <- torch.stack states ;;
  states <- torch.view_free states [torch.last_dim (torch.shape states)] ;;
  returns <- torch.stack returns ;;
  returns <- torch.view_free returns [1] ;;
  old_values <- torch.stack old_values ;;
  old_values <- torch.view_free old_values [1] ;;
  Ok {| episodes_aux := episodes_aux; states := states; returns := returns;
        old_values := old_values; action_log_probs := action_log_probs |}.

Definition len (self : instance) : result Z := torch.len (states self).

(** [self.action_log_probs[idx]]: [None] is not subscriptable. *)
Definition index_opt (x : option torch.Tensor) (idx : Z) : result torch.Tensor :=
  match x with
  | None => Raise TypeError
  | Some p => torch.index p idx
  end.

Definition getitem (self : instance) (idx : Z) : result item :=
  s <- torch.index (states self) idx ;;
  r <- torch.index (returns self) idx ;;
  v <- torch.index (old_values self) idx ;;
  lp <- index_opt (action_log_probs self) idx ;;
  Ok (torch.flatten s, torch.flatten r, torch.flatten v, torch.flatten lp).

End ExperienceAuxDataset.

(* ===================================================================== *)
(** ** model.py *)
(* ===================================================================== *)

Module nn.

(** tanh of one entry: its limits at the infinities, NaN kept. *)
Definition tanh_entry (x : float) : float :=
  match x with
  | Fin r => Fin (Rtrigo_def.tanh r)
  | PInf => Fin 1
  | NInf => Fin (-1)
  | NaN => NaN
  end.

(** [torch.tanh(t)] *)
Definition tanh := torch.unop tanh_entry.

(** [a / b] on tensors. *)
Definition div := torch.binop Float.div.

Module Linear.

Record instance : Type := {
  in_features : nat;
  out_features : nat;
  weight : torch.Tensor;
  bias : torch.Tensor
}.

(** [nn.Linear(in_features, out_features)]: a weight of shape (out, in) and
    a bias of shape (out).  Their first entries are drawn at random; [w] and
    [b] give them position by position. *)
Definition init (in_features out_features : nat) (w b : nat -> float) : instance :=
  {| in_features := in_features;
     out_features := out_features;
     weight := torch.mkTensor [out_features; in_features]
                 (map w (seq 0 (out_features * in_features)));
     bias := torch.mkTensor [out_features] (map b (seq 0 out_features)) |}.

(** [F.linear(x, weight, bias)]: x @ weight.T + bias along the last
    dimension of [x], whose size must be the number of columns of the
    weight. *)
Definition forward (self : instance) (x : torch.Tensor) : result torch.Tensor :=
  match torch.shape (weight self) with
  | [o; i] =>
      if torch.ndim x =? 0 then Raise RuntimeError
      else if torch.last_dim (torch.shape x) =? i
      then Ok (torch.mkTensor (removelast (torch.shape x) ++ [o])
                 (concat (map (fun r =>
                                 zip_with (fun w b => Float.add (torch.dot r w) b)
                                          (torch.rows (weight self))
                                          (torch.data (bias self)))
                              (torch.rows x))))
      else Raise RuntimeError
  | _ => Raise RuntimeError
  end.

End Linear.

End nn.

Module normal.

Module Normal.

Record instance : Type := { loc : torch.Tensor; scale : torch.Tensor }.

(** [constraints.real]: the entry is not NaN. *)
Definition real (x : float) : bool := negb (Float.is_nan x).

(** [constraints.positive]: 0 < x. *)
Definition positive (x : float) : bool :=
  match x with
  | Fin r => if Rlt_dec 0 r then true else false
  | PInf => true
  | NInf | NaN => false
  end.

(** [Normal(loc, scale)]: the two parameters are broadcast against each
    other, then validated (argument validation is on unless Python runs
    optimised or it has been switched off): a NaN in [loc] or an entry of
    [scale] that is not positive raises ValueError. *)
Definition init (loc scale : torch.Tensor) : result instance :=
  match torch.broadcast_shapes (torch.shape loc) (torch.shape scale) with
  | Some s =>
      let loc' := torch.mkTensor s (torch.broadcast_to loc s) in
      let scale' := torch.mkTensor s (torch.broadcast_to scale s) in
      if forallb real (torch.data loc') && forallb positive (torch.data scale')
      then Ok {| loc := loc'; scale := scale' |}
      else Raise ValueError
  | None => Raise RuntimeError
  end.

(** [dist.entropy()]: 0.5 + 0.5 * log(2 * pi) + log(scale), the constant
    being a Python float. *)
Definition entropy (self : instance) : torch.Tensor :=
  torch.unop (fun s => Float.add (Fin (1 / 2 + 1 / 2 * ln (2 * PI))) (Float.log s))
             (scale self).

End Normal.

End normal.

(** [torch.tensor([2.5, 2.5, 10, 10, 6.2831855, 10, 0.5, 0.5])], by which
    both networks divide their input. *)
Definition state_scale : torch.Tensor :=
  torch.mkTensor [8]
    [Fin 2.5; Fin 2.5; Fin 10; Fin 10; Fin 6.2831855; Fin 10; Fin 0.5; Fin 0.5].

Module Actor.

Record instance : Type := {
  n_states : nat;
  n_actions : nat;
  fc1 : nn.Linear.instance;
  fc2 : nn.Linear.instance;
  mu : nn.Linear.instance;
  log_std : torch.Tensor
}.

(** [values p] gives the first entries of the [p]-th random parameter. *)
Definition init (n_states n_actions : nat) (values : nat -> nat -> float)
    : instance :=
  {| n_states := n_states;
     n_actions := n_actions;
     fc1 := nn.Linear.init n_states 64 (values 0) (values 1);
     fc2 := nn.Linear.init 64 64 (values 2) (values 3);
     mu := nn.Linear.init 64 n_actions (values 4) (values 5);
     log_std := torch.mkTensor [1; n_actions] (repeat (Fin 0) n_actions) |}.

Definition forward (self : instance) (inputs : torch.Tensor)
    : result normal.Normal.instance :=
  x <- nn.div inputs state_scale ;;
  h <- nn.Linear.forward (fc1 self) x ;;
  let x := nn.tanh h in
  h <- nn.Linear.forward (fc2 self) x ;;
  let x := nn.tanh h in
  mu <- nn.Linear.forward (mu self) x ;;
  let std := torch.exp (log_std self) in
  normal.Normal.init mu std.

End Actor.

Module Critic.

Record instance : Type := {
  n_states : nat;
  fc1 : nn.Linear.instance;
  fc2 : nn.Linear.instance;
  value : nn.Linear.instance
}.

Definition init (n_states : nat) (values : nat -> nat -> float) : instance :=
  {| n_states := n_states;
     fc1 := nn.Linear.init n_states 64 (values 0) (values 1);
     fc2 := nn.Linear.init 64 64 (values 2) (values 3);
     value := nn.Linear.init 64 1 (values 4) (values 5) |}.

Definition forward (self : instance) (inputs : torch.Tensor)
    : result torch.Tensor :=
  x <- nn.div inputs state_scale ;;
  h <- nn.Linear.forward (fc1 self) x ;;
  let x := nn.tanh h in
  h <- nn.Linear.forward (fc2 self) x ;;
  let x := nn.tanh h in
  nn.Linear.forward (value self) x.

End Critic.

(* ===================================================================== *)
(** ** The formulas of the specification *)
(* ===================================================================== *)

Module Spec.


(** One entry of the clipped objective:
    min(ratio * adv, clip(ratio, 1 - eps, 1 + eps) * adv) with
    ratio = exp(new - old). *)
Definition clipped_surrogate (eps : R) (old new adv : float) : float :=
  let ratio := Float.exp (Float.sub new old) in
  Float.min (Float.mul ratio adv)
        (Float.mul (Float.clamp (Some (1 - eps)%R) (Some (1 + eps)%R) ratio) adv).

(** The same two formulas with the arithmetic in the format [fmt]. *)
Definition half_mse_in (fmt : format) (new_values returns : torch.Tensor)
    : result float :=
  d <- torch.sub_in fmt new_values returns ;;
  Ok (FP.mul fmt (round fmt (1 / 2)) (torch.mean_in fmt (torch.pow2_in fmt d))).

Definition clipped_surrogate_in (fmt : format) (eps : R) (old new adv : float)
    : float :=
  let ratio := FP.exp fmt (FP.sub fmt new old) in
  Float.min (FP.mul fmt ratio adv)
        (FP.mul fmt (FP.clamp fmt (Some (1 - eps)%R) (Some (1 + eps)%R) ratio) adv).

(** The advantages broadcast over the action dimension: each one stands for
    the [n_actions] entries of its row. *)
Definition over_actions (n_actions : nat) (advantages : list float) : list float :=
  flat_map (fun a => repeat a n_actions) advantages.

(** -mean(min(surrogate1, surrogate2)) over the entries of a batch of
    log-probabilities with [n_actions] columns. *)
Definition clip_actor_loss (eps : R) (n_actions : nat)
    (old new advantages : list float) : float :=
  Float.neg (Float.mean (zip_with (fun on a => clipped_surrogate eps (fst on) (snd on) a)
                          (combine old new)
                          (over_actions n_actions advantages))).

Definition clip_actor_loss_in (fmt : format) (eps : R) (n_actions : nat)
    (old new advantages : list float) : float :=
  Float.neg (FP.mean fmt
               (zip_with (fun on a => clipped_surrogate_in fmt eps (fst on) (snd on) a)
                         (combine old new)
                         (over_actions n_actions advantages))).

(** Sum of reals, inner product and L2 norm of rows of reals. *)
Definition Rsum (l : list R) : R := fold_left Rplus l 0%R.

Definition Rdot (u v : list R) : R := Rsum (zip_with Rmult u v).



End Spec.

(* ===================================================================== *)
(** ** Sample data *)
(* ===================================================================== *)

Module Sample.

Definition vec (l : list R) : torch.Tensor :=
  torch.mkTensor [length l] (map Fin l).

Definition m0 : Memory :=
  {| state := vec [1; 2]%R; action := vec [0]%R; action_log_prob := vec [-1]%R;
     reward := Fin 1; done := false; value := Fin (1 / 2) |}.

Definition m1 : Memory :=
  {| state := vec [3; 4]%R; action := vec [1]%R; action_log_prob := vec [-2]%R;
     reward := Fin 1; done := true; value := Fin 0 |}.

Definition m2 : Memory :=
  {| state := vec [5; 6]%R; action := vec [0]%R; action_log_prob := vec [-3]%R;
     reward := Fin 2; done := true; value := Fin 1 |}.

(** Two episodes around an empty one. *)
Definition episodes : list (list Memory) := [[m0; m1]; []; [m2]].

Definition aux0 : MemoryAux :=
  {| aux_state := vec [1; 2]%R; aux_actions := torch.scalar (Fin 3);
     aux_value := torch.scalar (Fin 4) |}.

Definition aux1 : MemoryAux :=
  {| aux_state := vec [5; 6]%R; aux_actions := torch.scalar (Fin 7);
     aux_value := torch.scalar (Fin 8) |}.

(** A model whose only parameter is a bias vector. *)
Definition bias_only : list torch.Tensor := [vec [1; 2; 3]%R].

(** A model with one 1x1 weight matrix and a bias. *)
Definition tiny_model : list torch.Tensor :=
  [torch.mkTensor [1%nat; 1%nat] [Fin 3]; vec [1]%R].

(** Singular values of the 1x1 matrix [[3]] (the only matrix of
    [tiny_model]). *)
Definition tiny_svdvals (p : torch.Tensor) : result torch.Tensor :=
  Ok (torch.mkTensor [1%nat; 1%nat] [Fin 3]).

(** A backend without a singular-value routine, for models that have no
    matrix parameter. *)
Definition no_svdvals (p : torch.Tensor) : result torch.Tensor :=
  Raise RuntimeError.

(** Parameters that all start at 1/2. *)
Definition half_values (p k : nat) : float := Fin (1 / 2).

(** One unbatched state, a batch of three states, and a state whose second
    entry is NaN. *)
Definition one_state : torch.Tensor := vec [1; 2; 3; 4; 5; 6; 7; 8]%R.

Definition three_states : torch.Tensor :=
  torch.mkTensor [3; 8] (repeat (Fin 1) 24).

Definition nan_state : torch.Tensor :=
  torch.mkTensor [8] [Fin 1; NaN; Fin 3; Fin 4; Fin 5; Fin 6; Fin 7; Fin 8].

End Sample.

(** The shapes a record has when its state is a vector of [d] entries and
    its return and old value are 0-dimensional. *)
Definition vector_record (d : nat) (r : MemoryAux) : Prop :=
  torch.shape (aux_state r) = [d] /\ length (torch.data (aux_state r)) = d
  /\ torch.shape (aux_actions r) = [] /\ length (torch.data (aux_actions r)) = 1%nat
  /\ torch.shape (aux_value r) = [] /\ length (torch.data (aux_value r)) = 1%nat.

(** A linear layer from [i] to [o] features: the shapes [nn.Linear] gives
    its parameters, each holding as many entries as its shape says. *)
Definition linear_layer (i o : nat) (l : nn.Linear.instance) : Prop :=
  torch.shape (nn.Linear.weight l) = [o; i] /\ torch.wf (nn.Linear.weight l)
  /\ torch.shape (nn.Linear.bias l) = [o] /\ torch.wf (nn.Linear.bias l).

(** All entries of a tensor are finite. *)
Definition finite_tensor (t : torch.Tensor) : Prop :=
  Forall (fun x => Float.is_finite x = true) (torch.data t).


(* ===================================================================== *)
(** * Properties *)
(* ===================================================================== *)

Unset Implicit Arguments.

(** ** Lists and Python indexing *)

Section ListFacts.

Context {A : Type}.

Lemma py_index_nth_error (l : list A) (i : nat) (a : A) :
  nth_error l i = Some a -> py_index l (Z.of_nat i) = Ok a.
Proof.
  intros H. unfold py_index.
  assert (Hlt : (i < length l)%nat) by (apply nth_error_Some; congruence).
  destruct (Z.of_nat i <? 0)%Z eqn:Hneg; [apply Z.ltb_lt in Hneg; lia|].
  replace ((0 <=? Z.of_nat i)%Z && (Z.of_nat i <? Z.of_nat (length l))%Z)
    with true.
  - now rewrite Nat2Z.id, H.
  - symmetry. apply andb_true_iff. split; [apply Z.leb_le | apply Z.ltb_lt]; lia.
Qed.

(** A negative index counts from the end. *)
Lemma py_index_negative (l : list A) (i : nat) (a : A) :
  nth_error l i = Some a ->
  py_index l (Z.of_nat i - Z.of_nat (length l)) = Ok a.
Proof.
  intros H. unfold py_index.
  assert (Hlt : (i < length l)%nat) by (apply nth_error_Some; congruence).
  destruct (Z.of_nat i - Z.of_nat (length l) <? 0)%Z eqn:Hneg.
  - replace (Z.of_nat i - Z.of_nat (length l) + Z.of_nat (length l))%Z
      with (Z.of_nat i) by lia.
    replace ((0 <=? Z.of_nat i)%Z && (Z.of_nat i <? Z.of_nat (length l))%Z)
      with true.
    + now rewrite Nat2Z.id, H.
    + symmetry. apply andb_true_iff.
      split; [apply Z.leb_le | apply Z.ltb_lt]; lia.
  - apply Z.ltb_ge in Hneg. lia.
Qed.

Lemma py_index_out_of_range (l : list A) (idx : Z) :
  (idx < - Z.of_nat (length l) \/ Z.of_nat (length l) <= idx)%Z ->
  py_index l idx = Raise IndexError.
Proof.
  intros H. unfold py_index.
  destruct (idx <? 0)%Z eqn:Hneg.
  - apply Z.ltb_lt in Hneg.
    destruct (0 <=? idx + Z.of_nat (length l))%Z eqn:H0; [|reflexivity].
    apply Z.leb_le in H0. lia.
  - apply Z.ltb_ge in Hneg.
    destruct (idx <? Z.of_nat (length l))%Z eqn:H1.
    + apply Z.ltb_lt in H1. lia.
    + now rewrite andb_false_r.
Qed.

Lemma nth_error_nth_default (l : list A) (i : nat) (a d : A) :
  nth_error l i = Some a -> nth i l d = a.
Proof. intros H. now apply nth_error_nth. Qed.

End ListFacts.

Lemma py_index_map {A B} (f : A -> B) (l : list A) (i : nat) (a : A) :
  nth_error l i = Some a -> py_index (map f l) (Z.of_nat i) = Ok (f a).
Proof.
  intros H. apply py_index_nth_error. now rewrite nth_error_map, H.
Qed.

Lemma zip_with_length {A B C} (f : A -> B -> C) l m :
  length (zip_with f l m) = Nat.min (length l) (length m).
Proof.
  revert m. induction l as [|a l IH]; intros [|b m]; simpl; auto.
Qed.

Lemma zip_with_nth_error {A B C} (f : A -> B -> C) l m i a b :
  nth_error l i = Some a -> nth_error m i = Some b ->
  nth_error (zip_with f l m) i = Some (f a b).
Proof.
  revert m i. induction l as [|x l IH]; intros [|y m] [|i]; simpl;
    try discriminate.
  - congruence.
  - apply IH.
Qed.

Lemma length_concat_sum {A} (ls : list (list A)) :
  length (concat ls) = list_sum (map (@length A) ls).
Proof.
  induction ls as [|l ls IH]; simpl; [reflexivity|].
  now rewrite length_app, IH.
Qed.

(** ** The advantage and return estimators (as the specification has them) *)

Section UtilsFacts.

Variables gamma lam : R.

Lemma gae_steps_length (e : list Memory) :
  length (snd (utils.gae_steps gamma lam e)) = length e.
Proof.
  induction e as [|t e IH]; simpl; [reflexivity|].
  destruct (utils.gae_steps gamma lam e) as [[g nv] advs]. simpl in *. now rewrite IH.
Qed.

Lemma get_gae_advantages_length (e : list Memory) :
  length (utils.get_gae_advantages gamma lam e) = length e.
Proof. apply gae_steps_length. Qed.

Lemma concat_gae_length (eps : list (list Memory)) :
  length (concat (map (utils.get_gae_advantages gamma lam) eps))
  = length (concat eps).
Proof.
  induction eps as [|e eps IH]; simpl; [reflexivity|].
  now rewrite !length_app, IH, get_gae_advantages_length.
Qed.

Lemma extend_all_concat (eps : list (list Memory)) advs flat :
  ExperienceDataset.extend_all gamma lam eps advs flat
  = (advs ++ concat (map (utils.get_gae_advantages gamma lam) eps),
     flat ++ concat eps).
Proof.
  revert advs flat. induction eps as [|e eps IH]; intros advs flat; simpl.
  - now rewrite !app_nil_r.
  - now rewrite IH, <- !app_assoc.
Qed.

End UtilsFacts.

Lemma Float_add_zero_r (x : float) (c : R) : c = 0%R -> Float.add x (Fin c) = x.
Proof.
  intros ->. destruct x; simpl; try reflexivity. f_equal. lra.
Qed.

(** C6 (modelled from the spec, algorithms/utils.py being absent): for an
    episode of a single transition with reward r, value v and done flag d,
    the GAE computation returns the single advantage
    r + gamma * 0 * (1 - d) - v, with no trace-decay term left; for the empty
    episode it returns the empty sequence. *)
Theorem gae_single_transition_and_empty (gamma lam : R) :
  (forall t : Memory,
     utils.get_gae_advantages gamma lam [t]
     = [Float.sub (Float.add (reward t)
                     (Float.mul (Float.mul (Fin gamma) (Fin 0)) (utils.not_done t)))
              (value t)])
  /\ utils.get_gae_advantages gamma lam [] = [].
Proof.
  split; [|reflexivity].
  intros t. unfold utils.get_gae_advantages. simpl.
  f_equal. apply Float_add_zero_r. ring.
Qed.

(** C5 (modelled from the spec, algorithms/utils.py being absent): on value
    and advantage sequences of one length n the returns computation yields a
    sequence of length n whose i-th entry is value[i] + advantage[i]; on
    sequences of different lengths it raises the shape error instead of
    truncating or padding. *)
Theorem get_returns_elementwise_or_error (values advantages : list float) :
  (length values = length advantages ->
   exists rets,
     utils.get_returns values advantages = Ok rets
     /\ length rets = length values
     /\ forall i, (i < length values)%nat ->
          nth i rets NaN = Float.add (nth i values NaN) (nth i advantages NaN))
  /\ (length values <> length advantages ->
      utils.get_returns values advantages = Raise RuntimeError).
Proof.
  unfold utils.get_returns. split; intros H.
  - rewrite H, Nat.eqb_refl. eexists. split; [reflexivity|]. split.
    + rewrite zip_with_length. lia.
    + intros i Hi.
      destruct (nth_error values i) as [v|] eqn:Hv;
        [|apply nth_error_None in Hv; lia].
      destruct (nth_error advantages i) as [a|] eqn:Ha;
        [|apply nth_error_None in Ha; lia].
      rewrite (nth_error_nth_default _ _ _ NaN Hv),
              (nth_error_nth_default _ _ _ NaN Ha).
      apply nth_error_nth_default. now apply zip_with_nth_error.
  - apply Nat.eqb_neq in H. now rewrite H.
Qed.

Lemma get_returns_elementwise_or_error_witness :
  (exists rets,
     utils.get_returns [Fin 1; Fin 2] [Fin 10; Fin 20] = Ok rets
     /\ length rets = 2%nat)
  /\ utils.get_returns [Fin 1; Fin 2] [Fin 10] = Raise RuntimeError.
Proof.
  destruct (get_returns_elementwise_or_error [Fin 1; Fin 2] [Fin 10; Fin 20])
    as [Heq _].
  destruct (get_returns_elementwise_or_error [Fin 1; Fin 2] [Fin 10])
    as [_ Hne].
  split.
  - destruct (Heq eq_refl) as [rets [H1 [H2 _]]]. exists rets. now split.
  - apply Hne. simpl. lia.
Defined.

(** ** ExperienceDataset *)

(** C10: constructing an ExperienceDataset from an empty list of episodes, or
    from episodes that are all empty, raises (ValueError, from unpacking the
    zip of no transition into the six fields) instead of giving a dataset of
    length 0. *)
Theorem ExperienceDataset_init_no_transition_raises (gamma lam : R)
    (episodes : list (list Memory)) :
  Forall (fun e => e = []) episodes ->
  ExperienceDataset.init gamma lam episodes = Raise ValueError.
Proof.
  intros H. unfold ExperienceDataset.init.
  rewrite extend_all_concat. simpl.
  assert (Hflat : concat episodes = []).
  { induction H as [|e es He _ IH]; simpl; [reflexivity|]. now rewrite He, IH. }
  now rewrite Hflat.
Qed.

Lemma ExperienceDataset_init_no_transition_raises_witness :
  ExperienceDataset.init (99 / 100) (95 / 100) [] = Raise ValueError
  /\ ExperienceDataset.init (99 / 100) (95 / 100) [[]; []] = Raise ValueError.
Proof.
  split.
  - apply (ExperienceDataset_init_no_transition_raises (99 / 100) (95 / 100) []).
    constructor.
  - apply (ExperienceDataset_init_no_transition_raises (99 / 100) (95 / 100) [[]; []]).
    repeat constructor.
Defined.

(** C1, as the claim states it, fails on a non-empty list of episodes: one
    empty episode is such a list, and no dataset is constructed from it. *)
Lemma ExperienceDataset_init_one_empty_episode :
  ExperienceDataset.init (99 / 100) (95 / 100) [[]] = Raise ValueError.
Proof. reflexivity. Qed.

(** C1 (amended): for every list of episodes with at least one transition,
    the ExperienceDataset is constructed, its length is the sum of the
    episode lengths, and indexed access at i returns the flattened state,
    action and action_log_prob, the reward, done and value of the i-th
    transition in episode-concatenation order, with the advantage at position
    i of the per-episode advantages concatenated in input order and the
    return at position i of the returns computed over all flattened values
    and advantages (value + advantage). *)
Theorem ExperienceDataset_flattens_episodes (gamma lam : R)
    (episodes : list (list Memory)) :
  concat episodes <> [] ->
  exists ds rets,
    ExperienceDataset.init gamma lam episodes = Ok ds
    /\ utils.get_returns
         (map value (concat episodes))
         (concat (map (utils.get_gae_advantages gamma lam) episodes)) = Ok rets
    /\ ExperienceDataset.len ds
       = Z.of_nat (list_sum (map (@length Memory) episodes))
    /\ forall i t,
         nth_error (concat episodes) i = Some t ->
         exists adv ret,
           nth_error (concat (map (utils.get_gae_advantages gamma lam) episodes)) i
           = Some adv
           /\ nth_error rets i = Some ret
           /\ ret = Float.add (value t) adv
           /\ ExperienceDataset.getitem ds (Z.of_nat i)
              = Ok (torch.flatten (state t), torch.flatten (action t),
                    torch.flatten (action_log_prob t),
                    reward t, done t, value t, adv, ret).
Proof.
  intros Hne.
  assert (Hlen : length (concat (map (utils.get_gae_advantages gamma lam) episodes))
                 = length (concat episodes)) by apply concat_gae_length.
  unfold ExperienceDataset.init. rewrite extend_all_concat. simpl.
  assert (Hsum : length (concat episodes)
                 = list_sum (map (@length Memory) episodes))
    by apply length_concat_sum.
  remember (concat episodes) as flat eqn:Hflat.
  remember (concat (map (utils.get_gae_advantages gamma lam) episodes)) as advs
    eqn:Hadvs.
  assert (Hunzip : ExperienceDataset.unzip6 flat
                   = Ok (map state flat, map action flat,
                         map action_log_prob flat, map reward flat,
                         map done flat, map value flat))
    by (destruct flat; [congruence | reflexivity]).
  rewrite Hunzip. cbn [bind].
  unfold utils.get_returns.
  rewrite length_map, Hlen, Nat.eqb_refl. cbn [bind].
  eexists. eexists. split; [reflexivity|]. split; [reflexivity|]. split.
  - unfold ExperienceDataset.len. cbn [ExperienceDataset.states].
    rewrite length_map. now rewrite Hsum.
  - intros i t Ht.
    assert (Hi : (i < length advs)%nat)
      by (rewrite Hlen; apply nth_error_Some; congruence).
    destruct (nth_error advs i) as [adv|] eqn:Hadv;
      [|apply nth_error_None in Hadv; lia].
    assert (Hret : nth_error (zip_with Float.add (map value flat) advs) i
                   = Some (Float.add (value t) adv)).
    { apply zip_with_nth_error; [|assumption].
      now rewrite nth_error_map, Ht. }
    exists adv, (Float.add (value t) adv).
    split; [reflexivity|]. split; [assumption|]. split; [reflexivity|].
    unfold ExperienceDataset.getitem.
    cbn [ExperienceDataset.states ExperienceDataset.actions
         ExperienceDataset.actions_log_prob ExperienceDataset.rewards
         ExperienceDataset.done_ ExperienceDataset.values
         ExperienceDataset.advantages ExperienceDataset.returns].
    rewrite (py_index_map state _ _ _ Ht), (py_index_map action _ _ _ Ht),
            (py_index_map action_log_prob _ _ _ Ht),
            (py_index_map reward _ _ _ Ht), (py_index_map done _ _ _ Ht),
            (py_index_map value _ _ _ Ht),
            (py_index_nth_error _ _ _ Hadv), (py_index_nth_error _ _ _ Hret).
    reflexivity.
Qed.

Lemma ExperienceDataset_flattens_episodes_witness :
  concat Sample.episodes <> []
  /\ exists ds,
       ExperienceDataset.init (99 / 100) (95 / 100) Sample.episodes = Ok ds
       /\ ExperienceDataset.len ds = 3%Z.
Proof.
  assert (H : concat Sample.episodes <> []) by discriminate.
  split; [exact H|].
  destruct (ExperienceDataset_flattens_episodes (99 / 100) (95 / 100)
              Sample.episodes H) as [ds [rets [Hinit [_ [Hlen _]]]]].
  exists ds. split; [exact Hinit | exact Hlen].
Defined.

(** ** Broadcasting *)

Section ChunkFacts.

Context {A : Type}.

Lemma chunks_length (n k : nat) (d : list A) : length (chunks n k d) = n.
Proof.
  revert d. induction n as [|n IH]; intros d; simpl; [reflexivity|].
  now rewrite IH.
Qed.

Lemma chunks_sizes (n k : nat) (d : list A) :
  length d = (n * k)%nat -> Forall (fun c => length c = k) (chunks n k d).
Proof.
  revert d. induction n as [|n IH]; intros d H; simpl; constructor.
  - rewrite length_firstn. simpl in H. lia.
  - apply IH. rewrite length_skipn. simpl in H. lia.
Qed.

Lemma concat_chunks (n k : nat) (d : list A) :
  length d = (n * k)%nat -> concat (chunks n k d) = d.
Proof.
  revert d. induction n as [|n IH]; intros d H; simpl.
  - simpl in H. destruct d; [reflexivity | discriminate].
  - rewrite IH; [apply firstn_skipn|].
    rewrite length_skipn. simpl in H. lia.
Qed.

Lemma chunks_concat (k : nat) (rows : list (list A)) :
  Forall (fun c => length c = k) rows ->
  chunks (length rows) k (concat rows) = rows.
Proof.
  induction 1 as [|r rows Hr _ IH]; simpl; [reflexivity|].
  subst k.
  rewrite firstn_app, firstn_all, Nat.sub_diag, firstn_O, app_nil_r.
  rewrite skipn_app, skipn_all, Nat.sub_diag, skipn_O. simpl.
  now rewrite IH.
Qed.

Lemma chunks_singletons (d : list A) :
  chunks (length d) 1 d = map (fun x => [x]) d.
Proof.
  induction d as [|x d IH]; simpl; [reflexivity|]. now rewrite IH.
Qed.

Lemma length_concat_uniform (k : nat) (rows : list (list A)) :
  Forall (fun c => length c = k) rows ->
  length (concat rows) = (length rows * k)%nat.
Proof.
  induction 1 as [|r rows Hr _ IH]; simpl; [reflexivity|].
  rewrite length_app, IH, Hr. reflexivity.
Qed.

Lemma concat_repeat_length (l : list A) (m : nat) :
  length (concat (repeat l m)) = (m * length l)%nat.
Proof.
  induction m as [|m IH]; simpl; [reflexivity|].
  now rewrite length_app, IH.
Qed.

Lemma concat_repeat_singleton (x : A) (m : nat) :
  concat (repeat [x] m) = repeat x m.
Proof.
  induction m as [|m IH]; simpl; [reflexivity|]. now rewrite IH.
Qed.

End ChunkFacts.

Lemma numel_app (s s' : list nat) :
  torch.numel (s ++ s') = (torch.numel s * torch.numel s')%nat.
Proof.
  induction s as [|n s IH]; simpl; [lia|]. rewrite IH. lia.
Qed.

Lemma numel_repeat_one (k : nat) : torch.numel (repeat 1%nat k) = 1%nat.
Proof. induction k as [|k IH]; simpl; [reflexivity|]. rewrite IH. reflexivity. Qed.

Lemma numel_pad (r : nat) (s : list nat) :
  torch.numel (torch.pad r s) = torch.numel s.
Proof.
  unfold torch.pad. rewrite numel_app, numel_repeat_one. lia.
Qed.

Lemma pad_same (s : list nat) : torch.pad (length s) s = s.
Proof. unfold torch.pad. now rewrite Nat.sub_diag. Qed.

Lemma bdim_same (x : nat) : torch.bdim x x = Some x.
Proof. unfold torch.bdim. now rewrite Nat.eqb_refl. Qed.

Lemma bdims_same (s : list nat) : torch.bdims s s = Some s.
Proof.
  induction s as [|x s IH]; simpl; [reflexivity|].
  now rewrite bdim_same, IH.
Qed.

Lemma broadcast_shapes_same (s : list nat) : torch.broadcast_shapes s s = Some s.
Proof.
  unfold torch.broadcast_shapes. rewrite Nat.max_id, pad_same. apply bdims_same.
Qed.

(** Reading a tensor at its own shape changes nothing. *)
Lemma expand_same {A} (s : list nat) (d : list A) :
  length d = torch.numel s -> torch.expand s s d = d.
Proof.
  revert d. induction s as [|n s IH]; intros d H; simpl; [reflexivity|].
  rewrite Nat.eqb_refl. simpl in H.
  rewrite <- (concat_chunks n (torch.numel s) d H) at 2. f_equal.
  rewrite <- (map_id (chunks n (torch.numel s) d)) at 2.
  apply map_ext_in. intros c Hc. apply IH.
  pose proof (chunks_sizes n (torch.numel s) d H) as Hs.
  rewrite Forall_forall in Hs. now apply Hs.
Qed.

Lemma expand_length {A} (src dst : list nat) (d : list A) :
  torch.expands_to src dst -> length d = torch.numel src ->
  length (torch.expand src dst d) = torch.numel dst.
Proof.
  intros H. revert d. induction H as [|n m src dst Hnm _ IH]; intros d Hd; simpl.
  - exact Hd.
  - simpl in Hd. destruct (n =? m) eqn:E.
    + apply Nat.eqb_eq in E. subst m.
      rewrite (length_concat_uniform (torch.numel dst)).
      * now rewrite length_map, chunks_length.
      * apply Forall_map.
        pose proof (chunks_sizes n (torch.numel src) d Hd) as Hs.
        eapply Forall_impl; [|exact Hs]. intros c Hc. now apply IH.
    + apply Nat.eqb_neq in E. destruct Hnm as [Hn | Hn]; [congruence|].
      subst n. rewrite concat_repeat_length. rewrite IH; [reflexivity|]. lia.
Qed.

Lemma bdim_expands (x y d : nat) :
  torch.bdim x y = Some d -> (x = d \/ x = 1%nat) /\ (y = d \/ y = 1%nat).
Proof.
  unfold torch.bdim. intros H.
  destruct (x =? y) eqn:E1.
  - apply Nat.eqb_eq in E1. inversion H. subst. auto.
  - destruct (x =? 1) eqn:E2.
    + apply Nat.eqb_eq in E2. inversion H. subst. auto.
    + destruct (y =? 1) eqn:E3; [|discriminate].
      apply Nat.eqb_eq in E3. inversion H. subst. auto.
Qed.

Lemma bdims_expands (a b s : list nat) :
  torch.bdims a b = Some s -> torch.expands_to a s /\ torch.expands_to b s.
Proof.
  revert b s. induction a as [|x a IH]; intros [|y b] s H; simpl in H;
    try discriminate.
  - inversion H. split; constructor.
  - destruct (torch.bdim x y) as [d|] eqn:Hd; [|discriminate].
    destruct (torch.bdims a b) as [ds|] eqn:Hds; [|discriminate].
    inversion H. subst s.
    destruct (bdim_expands _ _ _ Hd) as [Hx Hy].
    destruct (IH _ _ Hds) as [Ha Hb].
    split; constructor; assumption.
Qed.

Lemma bdims_length (a b s : list nat) :
  torch.bdims a b = Some s -> length s = length a.
Proof.
  intros H. destruct (bdims_expands _ _ _ H) as [Ha _].
  symmetry. exact (Forall2_length Ha).
Qed.

Lemma pad_length (r : nat) (s : list nat) :
  length (torch.pad r s) = Nat.max r (length s).
Proof. unfold torch.pad. rewrite length_app, repeat_length. lia. Qed.

(** The result of an entry-wise binary operation holds as many entries as
    its shape says. *)
Lemma binop_wf (f : float -> float -> float) (a b c : torch.Tensor) :
  torch.wf a -> torch.wf b -> torch.binop f a b = Ok c -> torch.wf c.
Proof.
  unfold torch.binop, torch.broadcast_shapes, torch.wf. intros Ha Hb H.
  set (r := Nat.max (length (torch.shape a)) (length (torch.shape b))) in *.
  destruct (torch.bdims (torch.pad r (torch.shape a)) (torch.pad r (torch.shape b)))
    as [s|] eqn:Hs; [|discriminate].
  inversion H. subst c. simpl. clear H.
  destruct (bdims_expands _ _ _ Hs) as [Ea Eb].
  assert (Hls : length s = r).
  { rewrite (bdims_length _ _ _ Hs), pad_length. unfold r. lia. }
  rewrite zip_with_length. unfold torch.broadcast_to. rewrite Hls.
  rewrite (expand_length _ _ _ Ea), (expand_length _ _ _ Eb).
  - apply Nat.min_id.
  - now rewrite numel_pad.
  - now rewrite numel_pad.
Qed.

Lemma binop_same_shape (f : float -> float -> float) (a b : torch.Tensor) :
  torch.wf a -> torch.wf b -> torch.shape a = torch.shape b ->
  torch.binop f a b
  = Ok (torch.mkTensor (torch.shape a) (zip_with f (torch.data a) (torch.data b))).
Proof.
  unfold torch.binop, torch.wf. intros Ha Hb Hs.
  rewrite <- Hs, broadcast_shapes_same. unfold torch.broadcast_to.
  rewrite <- Hs, pad_same, !expand_same; congruence.
Qed.

Lemma unop_wf (f : float -> float) (a : torch.Tensor) :
  torch.wf a -> torch.wf (torch.unop f a).
Proof. unfold torch.wf, torch.unop. simpl. now rewrite length_map. Qed.

(** ** Floating-point facts *)

Local Open Scope R_scope.

Lemma Rsign_pos (r : R) : 0 < r -> Float.Rsign r = Gt.
Proof.
  intros H. unfold Float.Rsign.
  destruct (total_order_T r 0) as [[Hlt | Heq] | Hgt]; try reflexivity; lra.
Qed.

Lemma Rsign_neg (r : R) : r < 0 -> Float.Rsign r = Lt.
Proof.
  intros H. unfold Float.Rsign.
  destruct (total_order_T r 0) as [[Hlt | Heq] | Hgt]; try reflexivity; lra.
Qed.




Lemma Float_min_id (x : float) : Float.min x x = x.
Proof.
  destruct x; simpl; try reflexivity. f_equal. apply Rmin_left. lra.
Qed.


Lemma fold_add_Fin (l : list R) (a : R) :
  fold_left Float.add (map Fin l) (Fin a) = Fin (fold_left Rplus l a).
Proof.
  revert a. induction l as [|x l IH]; intros a; simpl; [reflexivity|]. apply IH.
Qed.

Lemma Float_sum_Fin (l : list R) : Float.sum (map Fin l) = Fin (Spec.Rsum l).
Proof. apply fold_add_Fin. Qed.

Lemma fold_Rplus_shift (l : list R) (a : R) :
  fold_left Rplus l a = a + fold_left Rplus l 0.
Proof.
  revert a. induction l as [|x l IH]; intros a; simpl; [lra|].
  rewrite (IH (a + x)), (IH (0 + x)). lra.
Qed.

Lemma Rsum_cons (x : R) (l : list R) : Spec.Rsum (x :: l) = x + Spec.Rsum l.
Proof.
  unfold Spec.Rsum. simpl. rewrite fold_Rplus_shift. lra.
Qed.

Lemma Rsum_repeat (c : R) (k : nat) : Spec.Rsum (repeat c k) = INR k * c.
Proof.
  induction k as [|k IH]; [unfold Spec.Rsum; simpl; lra|].
  cbn [repeat]. rewrite Rsum_cons, IH, S_INR. lra.
Qed.

Lemma Forall_eq_repeat {A} (c : A) (l : list A) :
  Forall (eq c) l -> l = repeat c (length l).
Proof.
  induction 1 as [|x l Hx _ IH]; simpl; [reflexivity|]. now rewrite <- Hx, <- IH.
Qed.

(** The mean of a non-empty list of equal finite entries is that entry. *)
Lemma Float_mean_constant (c : R) (l : list float) :
  Forall (eq (Fin c)) l -> l <> [] -> Float.mean l = Fin c.
Proof.
  intros H Hne. unfold Float.mean.
  rewrite (Forall_eq_repeat _ _ H) at 1.
  rewrite <- map_repeat, Float_sum_Fin, Rsum_repeat.
  assert (Hk : 0 < INR (length l)).
  { apply lt_0_INR. destruct l; [congruence | simpl; lia]. }
  simpl. rewrite (Rsign_pos _ Hk). f_equal. field. lra.
Qed.


(** ** ClipCriticLoss *)





(** ** ClipActorLoss *)

Lemma bdim_one_r (a : nat) : torch.bdim a 1 = Some a.
Proof.
  unfold torch.bdim. destruct (a =? 1) eqn:E; [reflexivity|]. reflexivity.
Qed.

Lemma expand_unit {A} (n : nat) (x : A) :
  torch.expand [1%nat] [n] [x] = repeat x n.
Proof.
  cbn [torch.expand]. destruct (1 =? n) eqn:E.
  - apply Nat.eqb_eq in E. subst n. reflexivity.
  - cbn [torch.expand]. apply concat_repeat_singleton.
Qed.

(** A column of [b] entries read against [a] columns: every entry stands for
    its whole row. *)
Lemma expand_last_dim {A} (b a : nat) (d : list A) :
  length d = b ->
  torch.expand [b; 1%nat] [b; a] d = flat_map (fun x => repeat x a) d.
Proof.
  intros H. subst b.
  change (torch.expand [length d; 1%nat] [length d; a] d)
    with (if length d =? length d
          then concat (map (torch.expand [1%nat] [a])
                           (chunks (length d) (torch.numel [1%nat]) d))
          else concat (repeat (torch.expand [1%nat] [a] d) (length d))).
  rewrite Nat.eqb_refl.
  change (torch.numel [1%nat]) with 1%nat.
  rewrite chunks_singletons, map_map, flat_map_concat_map.
  f_equal. apply map_ext. intros x. apply expand_unit.
Qed.

Lemma over_actions_length (a : nat) (advs : list float) :
  length (Spec.over_actions a advs) = (length advs * a)%nat.
Proof.
  unfold Spec.over_actions. induction advs as [|x advs IH]; simpl; [reflexivity|].
  now rewrite length_app, repeat_length, IH.
Qed.

(** A [b x a] tensor against [advantages.unsqueeze(-1)] for [b] advantages. *)
Lemma binop_unsqueeze_last (f : float -> float -> float) (b a : nat)
    (d adv : list float) :
  length d = (b * a)%nat -> length adv = b ->
  torch.binop f (torch.mkTensor [b; a] d)
                (torch.unsqueeze_last (torch.mkTensor [b] adv))
  = Ok (torch.mkTensor [b; a] (zip_with f d (Spec.over_actions a adv))).
Proof.
  intros Hd Hadv. unfold torch.binop, torch.unsqueeze_last.
  cbn [torch.shape torch.data app].
  assert (Hs : torch.broadcast_shapes [b; a] [b; 1%nat] = Some [b; a]).
  { unfold torch.broadcast_shapes, torch.pad.
    cbn [length Nat.max Nat.sub repeat app torch.bdims].
    now rewrite bdim_same, bdim_one_r. }
  rewrite Hs. unfold torch.broadcast_to, torch.pad.
  cbn [torch.shape torch.data length Nat.sub repeat app].
  rewrite expand_same by (cbn [torch.numel fold_right]; lia).
  now rewrite expand_last_dim.
Qed.

Lemma surrogate_entries (eps : R) (old new adv : list float) :
  zip_with Float.min
    (zip_with Float.mul (map Float.exp (zip_with Float.sub new old)) adv)
    (zip_with Float.mul
       (map (Float.clamp (Some (1 - eps)) (Some (1 + eps)))
            (map Float.exp (zip_with Float.sub new old)))
       adv)
  = zip_with (fun on a => Spec.clipped_surrogate eps (fst on) (snd on) a)
             (combine old new) adv.
Proof.
  revert new adv. induction old as [|o old IH]; intros [|n new] [|a adv];
    try reflexivity.
  cbn [zip_with map combine fst snd]. rewrite IH. reflexivity.
Qed.

(** ClipActorLoss.forward on a batch of [b] rows of [a] log-probabilities and
    [b] advantages is the formula of the specification. *)
Lemma ClipActorLoss_forward_formula (eps : R) (b a : nat)
    (old new adv : list float) :
  length old = (b * a)%nat -> length new = (b * a)%nat -> length adv = b ->
  ClipActorLoss.forward (ClipActorLoss.init eps)
    (torch.mkTensor [b; a] old) (torch.mkTensor [b; a] new)
    (torch.mkTensor [b] adv)
  = Ok (Spec.clip_actor_loss eps a old new adv).
Proof.
  intros Ho Hn Ha.
  assert (Hnum : torch.numel [b; a] = (b * a)%nat)
    by (cbn [torch.numel fold_right]; lia).
  unfold ClipActorLoss.forward, ClipActorLoss.init. cbn [ClipActorLoss.eps].
  unfold torch.sub.
  rewrite binop_same_shape; [| unfold torch.wf; cbn [torch.data torch.shape]; lia ..
                             | reflexivity].
  cbn [bind torch.shape torch.data]. unfold torch.exp, torch.clamp, torch.unop.
  cbn [torch.shape torch.data].
  assert (Hlen : length (zip_with Float.sub new old) = (b * a)%nat)
    by (rewrite zip_with_length; lia).
  unfold torch.mul.
  rewrite binop_unsqueeze_last by (rewrite ?length_map; assumption).
  cbn [bind].
  rewrite binop_unsqueeze_last by (rewrite ?length_map; assumption).
  cbn [bind]. unfold torch.min.
  rewrite binop_same_shape.
  - cbn [bind torch.shape torch.data]. unfold torch.mean. cbn [torch.data].
    now rewrite surrogate_entries.
  - unfold torch.wf. cbn [torch.shape torch.data].
    rewrite zip_with_length, length_map, over_actions_length. lia.
  - unfold torch.wf. cbn [torch.shape torch.data].
    rewrite zip_with_length, !length_map, over_actions_length. lia.
  - reflexivity.
Qed.







(** ** SpectralEntropyLoss: the floored logarithm *)

Lemma floored_log_finite (eps r : R) :
  0 < eps ->
  Float.log (Float.clamp (Some eps) None (Fin r)) = Fin (ln (Rmax r eps)).
Proof.
  intros He. simpl. rewrite Rsign_pos; [reflexivity|].
  pose proof (Rmax_r r eps). lra.
Qed.

Lemma entropy_entries (eps : R) (ps : list R) :
  0 < eps ->
  zip_with Float.mul (map Float.neg (map Fin ps))
    (map Float.log (map (Float.clamp (Some eps) None) (map Fin ps)))
  = map Fin (map (fun p => - p * ln (Rmax p eps)) ps).
Proof.
  intros He. induction ps as [|p ps IH]; [reflexivity|].
  cbn [map zip_with]. rewrite IH, floored_log_finite by exact He. reflexivity.
Qed.


Lemma entropy_of_finite (self : SpectralEntropyLoss.instance) (s : list nat)
    (ps : list R) :
  0 < SpectralEntropyLoss.eps self ->
  length ps = torch.numel s ->
  SpectralEntropyLoss.entropy self (torch.mkTensor s (map Fin ps))
  = Ok (Fin (Spec.Rsum
               (map (fun p => - p * ln (Rmax p (SpectralEntropyLoss.eps self)))
                    ps))).
Proof.
  intros He Hlen.
  unfold SpectralEntropyLoss.entropy, torch.mul.
  rewrite binop_same_shape.
  - cbn [bind]. unfold torch.sum, SpectralEntropyLoss.log, torch.log,
      torch.clamp, torch.neg, torch.unop.
    cbn [torch.data torch.shape].
    rewrite entropy_entries by exact He. now rewrite Float_sum_Fin.
  - apply unop_wf. unfold torch.wf. cbn [torch.data torch.shape].
    now rewrite length_map.
  - unfold SpectralEntropyLoss.log. apply unop_wf, unop_wf.
    unfold torch.wf. cbn [torch.data torch.shape]. now rewrite length_map.
  - reflexivity.
Qed.



(** ** SpectralEntropyLoss: the call counter *)

Lemma accumulate_tick (svdvals : torch.Tensor -> result torch.Tensor)
    (self : SpectralEntropyLoss.instance) (model : list torch.Tensor) (loss : float) :
  SpectralEntropyLoss.accumulate svdvals (SpectralEntropyLoss.tick self) model loss
  = SpectralEntropyLoss.accumulate svdvals self model loss.
Proof.
  revert loss. induction model as [|p model IH]; intros loss; [reflexivity|].
  cbn [SpectralEntropyLoss.accumulate].
  destruct (torch.ndim p <? 2)%nat; [apply IH|].
  destruct (torch.last_two (torch.shape p)) as [[row col]|]; [|reflexivity].
  destruct (torch.view_free p [row; col]) as [p'|e]; [|reflexivity].
  cbn [bind]. destruct (svdvals p') as [sv|e]; [|reflexivity].
  cbn [bind].
  change (SpectralEntropyLoss.entropy (SpectralEntropyLoss.tick self)
            (torch.softmax sv))
    with (SpectralEntropyLoss.entropy self (torch.softmax sv)).
  destruct (SpectralEntropyLoss.entropy self (torch.softmax sv)) as [h|e];
    [|reflexivity].
  cbn [bind]. apply IH.
Qed.

(** One call on an instance whose accumulated entropy is the finite [raw]. *)
Lemma forward_step (svdvals : torch.Tensor -> result torch.Tensor)
    (self : SpectralEntropyLoss.instance) (model : list torch.Tensor) (raw : R) :
  SpectralEntropyLoss.accumulate svdvals self model (Fin 0) = Ok (Fin raw) ->
  SpectralEntropyLoss.update_rate self <> 0%Z ->
  SpectralEntropyLoss.forward svdvals self model
  = Ok (if (SpectralEntropyLoss.t self mod SpectralEntropyLoss.update_rate self
            =? 0)%Z
        then Fin (SpectralEntropyLoss.weight self * raw)
        else Fin 0,
        SpectralEntropyLoss.tick self).
Proof.
  intros Hacc Hrate. unfold SpectralEntropyLoss.forward.
  rewrite Hacc. cbn [bind]. unfold SpectralEntropyLoss.py_mod.
  apply Z.eqb_neq in Hrate. rewrite Hrate. cbn [bind].
  destruct (SpectralEntropyLoss.t self mod SpectralEntropyLoss.update_rate self
            =? 0)%Z; cbn [negb Float.mul]; [reflexivity|].
  do 2 f_equal. f_equal. ring.
Qed.

Lemma four_calls (svdvals : torch.Tensor -> result torch.Tensor)
    (weight eps raw : R) (model : list torch.Tensor) :
  SpectralEntropyLoss.accumulate svdvals
    (SpectralEntropyLoss.init weight eps 4) model (Fin 0) = Ok (Fin raw) ->
  SpectralEntropyLoss.calls 4 svdvals (SpectralEntropyLoss.init weight eps 4) model
  = Ok ([Fin 0; Fin 0; Fin 0; Fin (weight * raw)],
        {| SpectralEntropyLoss.eps := eps;
           SpectralEntropyLoss.update_rate := 4;
           SpectralEntropyLoss.weight := weight;
           SpectralEntropyLoss.t := 5 |}).
Proof.
  intros H0.
  set (s0 := SpectralEntropyLoss.init weight eps 4) in *.
  assert (H1 := H0). rewrite <- accumulate_tick in H1.
  assert (H2 := H1). rewrite <- accumulate_tick in H2.
  assert (H3 := H2). rewrite <- accumulate_tick in H3.
  cbn [SpectralEntropyLoss.calls].
  rewrite (forward_step _ _ _ _ H0) by discriminate. cbn [bind].
  rewrite (forward_step _ _ _ _ H1) by discriminate. cbn [bind].
  rewrite (forward_step _ _ _ _ H2) by discriminate. cbn [bind].
  rewrite (forward_step _ _ _ _ H3) by discriminate. cbn [bind].
  reflexivity.
Qed.

(** C2, as the claim states it, fails on a model without a matrix parameter
    (here a single bias vector): all four calls return 0, the fourth
    included. *)
Lemma SpectralEntropyLoss_four_zero_losses :
  SpectralEntropyLoss.calls 4 Sample.no_svdvals
    (SpectralEntropyLoss.init (2 / 100) (1 / 10000000000000000) 4)
    Sample.bias_only
  = Ok ([Fin 0; Fin 0; Fin 0; Fin 0],
        {| SpectralEntropyLoss.eps := 1 / 10000000000000000;
           SpectralEntropyLoss.update_rate := 4;
           SpectralEntropyLoss.weight := 2 / 100;
           SpectralEntropyLoss.t := 5 |}).
Proof.
  rewrite (four_calls _ _ _ 0) by reflexivity.
  now rewrite Rmult_0_r.
Qed.

(** C2 (amended): the call counter of a SpectralEntropyLoss starts at 1 and
    is incremented by every call, active or not; a call whose counter mod
    update_rate is not 0 returns 0 and any other call returns weight times
    the accumulated spectral entropy (whenever that entropy is finite); so
    four consecutive calls on a fresh instance with update period 4 and one
    fixed model return 0, 0, 0 and then weight times the entropy, which is
    itself 0 for some models, and leave the counter at 5. *)
Theorem SpectralEntropyLoss_throttle
    (svdvals : torch.Tensor -> result torch.Tensor) (model : list torch.Tensor) :
  (forall weight eps update_very,
     SpectralEntropyLoss.t (SpectralEntropyLoss.init weight eps update_very) = 1%Z)
  /\ (forall self raw,
        SpectralEntropyLoss.accumulate svdvals self model (Fin 0) = Ok (Fin raw) ->
        SpectralEntropyLoss.update_rate self <> 0%Z ->
        SpectralEntropyLoss.forward svdvals self model
        = Ok (if (SpectralEntropyLoss.t self
                  mod SpectralEntropyLoss.update_rate self =? 0)%Z
              then Fin (SpectralEntropyLoss.weight self * raw)
              else Fin 0,
              SpectralEntropyLoss.tick self))
  /\ (forall weight eps raw,
        SpectralEntropyLoss.accumulate svdvals
          (SpectralEntropyLoss.init weight eps 4) model (Fin 0) = Ok (Fin raw) ->
        SpectralEntropyLoss.calls 4 svdvals
          (SpectralEntropyLoss.init weight eps 4) model
        = Ok ([Fin 0; Fin 0; Fin 0; Fin (weight * raw)],
              {| SpectralEntropyLoss.eps := eps;
                 SpectralEntropyLoss.update_rate := 4;
                 SpectralEntropyLoss.weight := weight;
                 SpectralEntropyLoss.t := 5 |})).
Proof.
  split; [reflexivity|]. split.
  - intros self raw. apply forward_step.
  - intros weight eps raw. apply four_calls.
Qed.

Lemma Rsum_nonneg (l : list R) : Forall (fun x => 0 < x) l -> 0 <= Spec.Rsum l.
Proof.
  induction 1 as [|x l Hx _ IH]; [unfold Spec.Rsum; simpl; lra|].
  rewrite Rsum_cons. cbv beta in Hx. lra.
Qed.

Lemma Rsum_exp_pos (xs : list R) (x : R) :
  In x xs -> 0 < Spec.Rsum (map exp xs).
Proof.
  intros Hin.
  assert (Hall : Forall (fun y => 0 < y) (map exp xs)).
  { apply Forall_map, Forall_forall. intros y _. apply exp_pos. }
  destruct xs as [|y ys]; [contradiction|].
  cbn [map] in *. rewrite Rsum_cons.
  apply Forall_cons_iff in Hall. destruct Hall as [Hy Hys].
  pose proof (Rsum_nonneg _ Hys). lra.
Qed.

(** The softmax of a row of finite entries. *)
Lemma softmax_row_finite (xs : list R) :
  torch.softmax_row (map Fin xs)
  = map Fin (map (fun x => exp x / Spec.Rsum (map exp xs)) xs).
Proof.
  unfold torch.softmax_row.
  replace (map Float.exp (map Fin xs)) with (map Fin (map exp xs))
    by (rewrite !map_map; reflexivity).
  rewrite Float_sum_Fin, !map_map. apply map_ext_in. intros x Hx.
  cbn [Float.exp Float.div]. now rewrite (Rsign_pos _ (Rsum_exp_pos _ _ Hx)).
Qed.

Lemma tiny_model_entropy :
  exists raw : R,
    SpectralEntropyLoss.accumulate Sample.tiny_svdvals
      (SpectralEntropyLoss.init (2 / 100) (1 / 10000000000000000) 4)
      Sample.tiny_model (Fin 0)
    = Ok (Fin raw).
Proof.
  eexists. unfold Sample.tiny_model. cbn [SpectralEntropyLoss.accumulate].
  change (torch.ndim (torch.mkTensor [1%nat; 1%nat] [Fin 3]) <? 2)%nat with false.
  cbv iota.
  change (torch.last_two (torch.shape (torch.mkTensor [1%nat; 1%nat] [Fin 3])))
    with (Some (1%nat, 1%nat)).
  cbv iota beta.
  change (torch.view_free (torch.mkTensor [1%nat; 1%nat] [Fin 3]) [1%nat; 1%nat])
    with (Ok (torch.mkTensor [1%nat; 1%nat; 1%nat] [Fin 3])).
  cbn [bind Sample.tiny_svdvals].
  change (torch.softmax (torch.mkTensor [1%nat; 1%nat] [Fin 3]))
    with (torch.mkTensor [1%nat; 1%nat]
            (torch.softmax_row (map Fin [3]) ++ [])).
  rewrite softmax_row_finite, app_nil_r.
  rewrite entropy_of_finite; [| simpl; lra | reflexivity].
  cbn [bind].
  change (Nat.ltb (torch.ndim (Sample.vec [1%R])) 2) with true. cbv iota.
  cbn [Float.add]. reflexivity.
Qed.

Lemma SpectralEntropyLoss_throttle_witness :
  exists raw : R,
    SpectralEntropyLoss.calls 4 Sample.tiny_svdvals
      (SpectralEntropyLoss.init (2 / 100) (1 / 10000000000000000) 4)
      Sample.tiny_model
    = Ok ([Fin 0; Fin 0; Fin 0; Fin (2 / 100 * raw)],
          {| SpectralEntropyLoss.eps := 1 / 10000000000000000;
             SpectralEntropyLoss.update_rate := 4;
             SpectralEntropyLoss.weight := 2 / 100;
             SpectralEntropyLoss.t := 5 |}).
Proof.
  destruct tiny_model_entropy as [raw Hraw]. exists raw.
  destruct (SpectralEntropyLoss_throttle Sample.tiny_svdvals Sample.tiny_model)
    as [_ [_ H4]].
  apply H4. exact Hraw.
Defined.

(** ** ExperienceAuxDataset *)

Lemma py_index_ok_or_IndexError {A} (l : list A) (idx : Z) :
  (exists a, py_index l idx = Ok a) \/ py_index l idx = Raise IndexError.
Proof.
  unfold py_index.
  destruct ((0 <=? (if (idx <? 0)%Z then (idx + Z.of_nat (length l))%Z else idx))%Z
            && ((if (idx <? 0)%Z then (idx + Z.of_nat (length l))%Z else idx)
                <? Z.of_nat (length l))%Z); [|now right].
  destruct (nth_error l _) as [a|]; [left; now exists a | now right].
Qed.

Lemma index_ok_or_IndexError (t : torch.Tensor) (idx : Z) :
  (exists x, torch.index t idx = Ok x) \/ torch.index t idx = Raise IndexError.
Proof.
  unfold torch.index. destruct (torch.shape t) as [|n s]; [now right|].
  destruct (py_index_ok_or_IndexError (chunks n (torch.numel s) (torch.data t)) idx)
    as [[d Hd] | Hd]; rewrite Hd; cbn [bind]; [left; eauto | now right].
Qed.

(** Indexed access without action log-probabilities always raises: an index
    out of range raises IndexError before [None] is reached, any other index
    raises TypeError on [None]. *)
Lemma getitem_None_raises (ds : ExperienceAuxDataset.instance) (idx : Z) :
  ExperienceAuxDataset.action_log_probs ds = None ->
  ExperienceAuxDataset.getitem ds idx = Raise IndexError
  \/ ExperienceAuxDataset.getitem ds idx = Raise TypeError.
Proof.
  intros Hnone. unfold ExperienceAuxDataset.getitem.
  destruct (index_ok_or_IndexError (ExperienceAuxDataset.states ds) idx)
    as [[s Hs] | Hs]; rewrite Hs; cbn [bind]; [|now left].
  destruct (index_ok_or_IndexError (ExperienceAuxDataset.returns ds) idx)
    as [[r Hr] | Hr]; rewrite Hr; cbn [bind]; [|now left].
  destruct (index_ok_or_IndexError (ExperienceAuxDataset.old_values ds) idx)
    as [[v Hv] | Hv]; rewrite Hv; cbn [bind]; [|now left].
  rewrite Hnone. now right.
Qed.

Lemma view_free_shape (t t' : torch.Tensor) (rest : list nat) :
  torch.view_free t rest = Ok t' ->
  exists n, torch.shape t' = n :: rest.
Proof.
  unfold torch.view_free. intros H.
  destruct (torch.numel rest =? 0)%nat; [discriminate|].
  destruct (torch.numel (torch.shape t) mod torch.numel rest =? 0)%nat;
    [|discriminate].
  inversion H. eexists. reflexivity.
Qed.

(** C9: an ExperienceAuxDataset constructed with action_log_probs left at
    None is constructed and answers len, but every indexed access raises
    (IndexError on an index out of range, TypeError on None otherwise); and
    construction checks nothing about a supplied action_log_probs: it
    succeeds with any tensor exactly as it does with None, and stores it. *)
Theorem ExperienceAuxDataset_default_log_probs
    (episodes_aux : list MemoryAux) (ds : ExperienceAuxDataset.instance) :
  ExperienceAuxDataset.init episodes_aux None = Ok ds ->
  ExperienceAuxDataset.action_log_probs ds = None
  /\ (exists n, ExperienceAuxDataset.len ds = Ok n)
  /\ (forall idx,
        ExperienceAuxDataset.getitem ds idx = Raise IndexError
        \/ ExperienceAuxDataset.getitem ds idx = Raise TypeError)
  /\ (forall action_log_probs : torch.Tensor,
        ExperienceAuxDataset.init episodes_aux (Some action_log_probs)
        = Ok {| ExperienceAuxDataset.episodes_aux :=
                  ExperienceAuxDataset.episodes_aux ds;
                ExperienceAuxDataset.states := ExperienceAuxDataset.states ds;
                ExperienceAuxDataset.returns := ExperienceAuxDataset.returns ds;
                ExperienceAuxDataset.old_values :=
                  ExperienceAuxDataset.old_values ds;
                ExperienceAuxDataset.action_log_probs :=
                  Some action_log_probs |}).
Proof.
  unfold ExperienceAuxDataset.init. intros H.
  destruct (ExperienceAuxDataset.unzip3 episodes_aux) as [[[ss rs] vs]|e];
    [|discriminate].
  cbn [bind] in *.
  destruct (torch.stack ss) as [st|e]; [|discriminate]. cbn [bind] in *.
  destruct (torch.view_free st [torch.last_dim (torch.shape st)]) as [st'|e] eqn:Hst;
    [|discriminate].
  cbn [bind] in *.
  destruct (torch.stack rs) as [rt|e]; [|discriminate]. cbn [bind] in *.
  destruct (torch.view_free rt [1%nat]) as [rt'|e]; [|discriminate].
  cbn [bind] in *.
  destruct (torch.stack vs) as [vt|e]; [|discriminate]. cbn [bind] in *.
  destruct (torch.view_free vt [1%nat]) as [vt'|e]; [|discriminate].
  cbn [bind] in *.
  inversion H. subst ds. clear H. cbn.
  split; [reflexivity|]. split; [|split].
  - unfold ExperienceAuxDataset.len. cbn.
    destruct (view_free_shape _ _ _ Hst) as [n Hn].
    unfold torch.len. rewrite Hn. eauto.
  - intros idx. now apply getitem_None_raises.
  - reflexivity.
Qed.

Lemma ExperienceAuxDataset_default_log_probs_witness :
  exists ds,
    ExperienceAuxDataset.init [Sample.aux0; Sample.aux1] None = Ok ds
    /\ ExperienceAuxDataset.len ds = Ok 2%Z
    /\ ExperienceAuxDataset.getitem ds 0 = Raise TypeError
    /\ ExperienceAuxDataset.getitem ds 2 = Raise IndexError
    /\ is_ok (ExperienceAuxDataset.init [Sample.aux0; Sample.aux1]
                (Some (Sample.vec [1; 2; 3]))) = true.
Proof.
  eexists. split; [reflexivity|].
  split; [reflexivity|]. split; [reflexivity|]. split; [reflexivity|].
  destruct (ExperienceAuxDataset_default_log_probs
              [Sample.aux0; Sample.aux1] _ eq_refl) as [_ [_ [_ H]]].
  now rewrite H.
Defined.

(** ** The orthogonality regularizer *)


Lemma select_Forall {A} (P : A -> Prop) (vals : list A) (mask : list bool) :
  Forall P vals -> Forall P (select vals mask).
Proof.
  intros H. revert mask. induction H as [|x vals Hx _ IH]; intros [|b mask];
    try constructor.
  cbn [select]. destruct b; [constructor; [exact Hx | apply IH] | apply IH].
Qed.





Lemma eye_length (n : nat) : length (torch.eye_entries n) = (n * n)%nat.
Proof.
  unfold torch.eye_entries. rewrite (length_concat_uniform n).
  - now rewrite length_map, length_seq.
  - apply Forall_map, Forall_forall. intros i _. now rewrite length_map, length_seq.
Qed.





Lemma zip_mul_finite (xs ys : list R) :
  zip_with Float.mul (map Fin xs) (map Fin ys) = map Fin (zip_with Rmult xs ys).
Proof.
  revert ys. induction xs as [|x xs IH]; intros [|y ys]; try reflexivity.
  cbn [map zip_with Float.mul]. now rewrite IH.
Qed.

Lemma dot_finite (xs ys : list R) :
  torch.dot (map Fin xs) (map Fin ys) = Fin (Spec.Rdot xs ys).
Proof. unfold torch.dot. now rewrite zip_mul_finite, Float_sum_Fin. Qed.













(** ** The scenario of the specification (section 8) *)

(** The episode [(r=1, done=0, v=0.5), (r=1, done=1, v=0)] with
    gamma = 0.99 and lambda = 0.95 has the advantages [1.4405, 1.0]. *)
Example gae_scenario :
  utils.get_gae_advantages (99 / 100) (95 / 100) [Sample.m0; Sample.m1]
  = [Fin (14405 / 10000); Fin 1].
Proof.
  unfold utils.get_gae_advantages. simpl.
  f_equal; [|f_equal]; f_equal; lra.
Qed.

(** ** Construction of an ExperienceAuxDataset *)

Lemma shape_eqb_refl (s : list nat) : torch.shape_eqb s s = true.
Proof.
  induction s as [|n s IH]; [reflexivity|].
  cbn [torch.shape_eqb]. now rewrite Nat.eqb_refl, IH.
Qed.

Lemma last_dim_divides (s : list nat) :
  Nat.divide (torch.last_dim s) (torch.numel s).
Proof.
  unfold torch.last_dim.
  induction s as [|n s IH]; [exists 1%nat; reflexivity|].
  destruct s as [|m s].
  - exists 1%nat. simpl. lia.
  - change (last (n :: m :: s) 1%nat) with (last (m :: s) 1%nat).
    change (torch.numel (n :: m :: s)) with (n * torch.numel (m :: s))%nat.
    now apply Nat.divide_mul_r.
Qed.

Lemma stack_uniform (f : MemoryAux -> torch.Tensor) (r0 : MemoryAux)
    (rest : list MemoryAux) :
  Forall (fun r => torch.shape (f r) = torch.shape (f r0)) rest ->
  torch.stack (map f (r0 :: rest))
  = Ok (torch.mkTensor (S (length rest) :: torch.shape (f r0))
          (concat (map torch.data (map f (r0 :: rest))))).
Proof.
  intros H. unfold torch.stack. cbn [map].
  assert (Hall : forallb (fun t => torch.shape_eqb (torch.shape t) (torch.shape (f r0)))
                         (f r0 :: map f rest) = true).
  { cbn [forallb]. rewrite shape_eqb_refl. cbn [andb].
    apply forallb_forall. intros t Ht. apply in_map_iff in Ht.
    destruct Ht as [r [<- Hr]]. rewrite Forall_forall in H.
    rewrite (H r Hr). apply shape_eqb_refl. }
  rewrite Hall. cbn [length]. now rewrite length_map.
Qed.

Lemma view_free_column (t : torch.Tensor) :
  torch.view_free t [1%nat]
  = Ok (torch.mkTensor [torch.numel (torch.shape t); 1%nat] (torch.data t)).
Proof.
  unfold torch.view_free. cbn [torch.numel fold_right Nat.mul Nat.add Nat.eqb].
  now rewrite Nat.mod_1_r, Nat.div_1_r.
Qed.

(** Construction succeeds, with or without action log-probabilities, on one
    record or more whose states, returns and old values each share a shape
    (so that they stack), the states having a last dimension that is not
    empty; the dataset then has as many rows as the stacked states have
    entries per trailing dimension. *)
Lemma ExperienceAuxDataset_init_succeeds (r0 : MemoryAux)
    (rest : list MemoryAux) (action_log_probs : option torch.Tensor) :
  Forall (fun r => torch.shape (aux_state r) = torch.shape (aux_state r0)) rest ->
  Forall (fun r => torch.shape (aux_actions r) = torch.shape (aux_actions r0)) rest ->
  Forall (fun r => torch.shape (aux_value r) = torch.shape (aux_value r0)) rest ->
  torch.last_dim (S (length rest) :: torch.shape (aux_state r0)) <> 0%nat ->
  exists ds,
    ExperienceAuxDataset.init (r0 :: rest) action_log_probs = Ok ds
    /\ ExperienceAuxDataset.len ds
       = Ok (Z.of_nat
               (torch.numel (S (length rest) :: torch.shape (aux_state r0))
                / torch.last_dim (S (length rest) :: torch.shape (aux_state r0)))).
Proof.
  intros Hs Hr Hv Hlast. unfold ExperienceAuxDataset.init.
  cbn [ExperienceAuxDataset.unzip3 bind].
  rewrite (stack_uniform aux_state r0 rest Hs). cbn [bind torch.shape].
  set (shp := S (length rest) :: torch.shape (aux_state r0)) in *.
  unfold torch.view_free at 1. cbn [torch.shape].
  replace (torch.numel [torch.last_dim shp]) with (torch.last_dim shp)
    by (cbn [torch.numel fold_right]; lia).
  apply Nat.eqb_neq in Hlast. rewrite Hlast.
  assert (Hmod : (torch.numel shp mod torch.last_dim shp =? 0)%nat = true).
  { apply Nat.eqb_eq. destruct (last_dim_divides shp) as [q Hq].
    rewrite Hq. apply Nat.Div0.mod_mul. }
  rewrite Hmod. cbn [bind].
  rewrite (stack_uniform aux_actions r0 rest Hr). cbn [bind].
  rewrite view_free_column. cbn [bind].
  rewrite (stack_uniform aux_value r0 rest Hv). cbn [bind].
  rewrite view_free_column. cbn [bind].
  eexists. split; [reflexivity|]. reflexivity.
Qed.

(** ** Finite singular values give a finite spectral entropy *)


Lemma finite_entries (d : list float) :
  Forall (fun x => Float.is_finite x = true) d -> exists rs, d = map Fin rs.
Proof.
  induction 1 as [|x d Hx _ [rs ->]]; [now exists []|].
  destruct x as [r| | |]; try discriminate. now exists (r :: rs).
Qed.




(* ===================================================================== *)
(** * Further properties of the code *)
(* ===================================================================== *)

(** ** SpectralEntropyLoss.forward: the throttle in general *)

(** X1: with update period 0 every call of forward raises
    ZeroDivisionError (from [self.t % self.update_rate], once the loop over
    the parameters has run), so no loss is ever returned and the counter
    never moves. *)
Theorem SpectralEntropyLoss_zero_period_raises
    (svdvals : torch.Tensor -> result torch.Tensor)
    (self : SpectralEntropyLoss.instance) (model : list torch.Tensor)
    (raw : float) (n : nat) :
  SpectralEntropyLoss.accumulate svdvals self model (Fin 0) = Ok raw ->
  SpectralEntropyLoss.update_rate self = 0%Z ->
  SpectralEntropyLoss.forward svdvals self model = Raise ZeroDivisionError
  /\ SpectralEntropyLoss.calls (S n) svdvals self model = Raise ZeroDivisionError.
Proof.
  intros Hacc Hrate.
  assert (H : SpectralEntropyLoss.forward svdvals self model
              = Raise ZeroDivisionError).
  { unfold SpectralEntropyLoss.forward. rewrite Hacc. cbn [bind].
    unfold SpectralEntropyLoss.py_mod. now rewrite Hrate. }
  split; [exact H|]. cbn [SpectralEntropyLoss.calls]. now rewrite H.
Qed.

Lemma SpectralEntropyLoss_zero_period_raises_witness :
  SpectralEntropyLoss.forward Sample.no_svdvals
    (SpectralEntropyLoss.init (2 / 100) (1 / 10000000000000000) 0)
    Sample.bias_only
  = Raise ZeroDivisionError
  /\ SpectralEntropyLoss.calls 3 Sample.no_svdvals
       (SpectralEntropyLoss.init (2 / 100) (1 / 10000000000000000) 0)
       Sample.bias_only
     = Raise ZeroDivisionError.
Proof.
  apply (SpectralEntropyLoss_zero_period_raises Sample.no_svdvals
           (SpectralEntropyLoss.init (2 / 100) (1 / 10000000000000000) 0)
           Sample.bias_only (Fin 0) 2); reflexivity.
Defined.

Lemma calls_from (svdvals : torch.Tensor -> result torch.Tensor)
    (model : list torch.Tensor) (raw : R) (n : nat) :
  forall (self : SpectralEntropyLoss.instance) (s : nat),
    SpectralEntropyLoss.accumulate svdvals self model (Fin 0) = Ok (Fin raw) ->
    SpectralEntropyLoss.update_rate self <> 0%Z ->
    SpectralEntropyLoss.t self = Z.of_nat s ->
    SpectralEntropyLoss.calls n svdvals self model
    = Ok (map (fun k => if (Z.of_nat k mod SpectralEntropyLoss.update_rate self
                            =? 0)%Z
                        then Fin (SpectralEntropyLoss.weight self * raw)
                        else Fin 0)
              (seq s n),
          {| SpectralEntropyLoss.eps := SpectralEntropyLoss.eps self;
             SpectralEntropyLoss.update_rate := SpectralEntropyLoss.update_rate self;
             SpectralEntropyLoss.weight := SpectralEntropyLoss.weight self;
             SpectralEntropyLoss.t := Z.of_nat (s + n) |}).
Proof.
  induction n as [|n IH]; intros self s Hacc Hrate Ht.
  - cbn [SpectralEntropyLoss.calls seq map]. rewrite Nat.add_0_r, <- Ht.
    now destruct self.
  - cbn [SpectralEntropyLoss.calls].
    rewrite (forward_step _ _ _ _ Hacc Hrate). cbn [bind].
    rewrite (IH (SpectralEntropyLoss.tick self) (S s)).
    + cbn [bind seq map SpectralEntropyLoss.tick SpectralEntropyLoss.eps
           SpectralEntropyLoss.update_rate SpectralEntropyLoss.weight].
      rewrite Ht. now rewrite Nat.add_succ_r.
    + now rewrite accumulate_tick.
    + exact Hrate.
    + cbn [SpectralEntropyLoss.tick SpectralEntropyLoss.t]. rewrite Ht. lia.
Qed.

(** X2: for any update period other than 0 (and a finite accumulated
    entropy), n consecutive calls on a fresh instance and one model return,
    at the k-th call (k = 1..n), weight times the entropy when the period
    divides k and 0 otherwise, and leave the counter at n + 1. *)
Theorem SpectralEntropyLoss_periodic
    (svdvals : torch.Tensor -> result torch.Tensor) (model : list torch.Tensor)
    (weight eps raw : R) (update_very : Z) (n : nat) :
  update_very <> 0%Z ->
  SpectralEntropyLoss.accumulate svdvals
    (SpectralEntropyLoss.init weight eps update_very) model (Fin 0)
  = Ok (Fin raw) ->
  SpectralEntropyLoss.calls n svdvals
    (SpectralEntropyLoss.init weight eps update_very) model
  = Ok (map (fun k => if (Z.of_nat k mod update_very =? 0)%Z
                      then Fin (weight * raw) else Fin 0)
            (seq 1 n),
        {| SpectralEntropyLoss.eps := eps;
           SpectralEntropyLoss.update_rate := update_very;
           SpectralEntropyLoss.weight := weight;
           SpectralEntropyLoss.t := Z.of_nat (1 + n) |}).
Proof.
  intros Hrate Hacc.
  apply (calls_from svdvals model raw n
           (SpectralEntropyLoss.init weight eps update_very) 1 Hacc Hrate).
  reflexivity.
Qed.

Lemma SpectralEntropyLoss_periodic_witness :
  exists raw : R,
    SpectralEntropyLoss.calls 7 Sample.tiny_svdvals
      (SpectralEntropyLoss.init (2 / 100) (1 / 10000000000000000) 3)
      Sample.tiny_model
    = Ok ([Fin 0; Fin 0; Fin (2 / 100 * raw); Fin 0; Fin 0;
           Fin (2 / 100 * raw); Fin 0],
          {| SpectralEntropyLoss.eps := 1 / 10000000000000000;
             SpectralEntropyLoss.update_rate := 3;
             SpectralEntropyLoss.weight := 2 / 100;
             SpectralEntropyLoss.t := 8 |}).
Proof.
  destruct tiny_model_entropy as [raw Hraw]. exists raw.
  apply (SpectralEntropyLoss_periodic Sample.tiny_svdvals Sample.tiny_model
           (2 / 100) (1 / 10000000000000000) raw 3 7).
  - discriminate.
  - exact Hraw.
Defined.


(** ** SpectralEntropyLoss.entropy on probabilities *)





(** ** ClipActorLoss.forward: the clip *)





(** Where the ratio lies within [1 - eps, 1 + eps] the clamp changes
    nothing and the two surrogates are the same entry. *)
Lemma unclipped_surrogates (eps : R) (old new : list R) (advs : list float) :
  Forall2 (fun o n => 1 - eps <= exp (n - o) <= 1 + eps) old new ->
  zip_with (fun on a => Spec.clipped_surrogate eps (fst on) (snd on) a)
           (combine (map Fin old) (map Fin new)) advs
  = zip_with Float.mul (map Fin (zip_with (fun o n => exp (n - o)) old new)) advs.
Proof.
  intros H. revert advs. induction H as [|o n old new [Hlo Hhi] _ IH];
    intros [|x advs]; try reflexivity.
  cbn [map combine zip_with fst snd]. rewrite IH. f_equal.
  unfold Spec.clipped_surrogate. cbn [Float.sub Float.neg Float.add Float.exp
    Float.clamp Float.max Float.min].
  change (n + - o) with (n - o).
  rewrite Rmax_left by lra. rewrite Rmin_left by lra. apply Float_min_id.
Qed.

(** X5: when every probability ratio exp(new - old) lies within
    [1 - eps, 1 + eps] the clip is inactive: ClipActorLoss.forward returns
    -mean(ratio * adv), the advantages broadcast over the action
    dimension. *)
Theorem ClipActorLoss_unclipped (eps : R) (b a : nat) (old new : list R)
    (adv : list float) :
  length old = (b * a)%nat -> length new = (b * a)%nat -> length adv = b ->
  Forall2 (fun o n => 1 - eps <= exp (n - o) <= 1 + eps) old new ->
  ClipActorLoss.forward (ClipActorLoss.init eps)
    (torch.mkTensor [b; a] (map Fin old)) (torch.mkTensor [b; a] (map Fin new))
    (torch.mkTensor [b] adv)
  = Ok (Float.neg
          (Float.mean
             (zip_with Float.mul
                (map Fin (zip_with (fun o n => exp (n - o)) old new))
                (Spec.over_actions a adv)))).
Proof.
  intros Ho Hn Ha Hclip.
  rewrite ClipActorLoss_forward_formula by (rewrite ?length_map; assumption).
  unfold Spec.clip_actor_loss. now rewrite unclipped_surrogates.
Qed.

Lemma ClipActorLoss_unclipped_witness :
  ClipActorLoss.forward (ClipActorLoss.init (2 / 10))
    (torch.mkTensor [2%nat; 1%nat] (map Fin [-1; -2]))
    (torch.mkTensor [2%nat; 1%nat] (map Fin [-1; -2]))
    (torch.mkTensor [2%nat] [Fin 3; Fin (-1)])
  = Ok (Float.neg
          (Float.mean
             (zip_with Float.mul
                (map Fin (zip_with (fun o n => exp (n - o)) [-1; -2] [-1; -2]))
                (Spec.over_actions 1 [Fin 3; Fin (-1)])))).
Proof.
  apply (ClipActorLoss_unclipped (2 / 10) 2 1 [-1; -2] [-1; -2]
           [Fin 3; Fin (-1)]); try reflexivity.
  repeat constructor;
    match goal with
    | |- context [exp (?x - ?x)] =>
        replace (x - x) with 0 by lra; rewrite exp_0; lra
    end.
Defined.




(** X7: a batch of b rows against c advantages, where c is neither b nor 1
    (and b is not 1), does not broadcast: ClipActorLoss.forward raises
    RuntimeError, whatever the entries. *)
Theorem ClipActorLoss_advantage_count_mismatch (eps : R) (b a c : nat)
    (old new adv : list float) :
  length old = (b * a)%nat -> length new = (b * a)%nat ->
  c <> b -> c <> 1%nat -> b <> 1%nat ->
  ClipActorLoss.forward (ClipActorLoss.init eps)
    (torch.mkTensor [b; a] old) (torch.mkTensor [b; a] new)
    (torch.mkTensor [c] adv)
  = Raise RuntimeError.
Proof.
  intros Ho Hn Hcb Hc1 Hb1.
  unfold ClipActorLoss.forward, torch.sub.
  rewrite binop_same_shape;
    [| unfold torch.wf; cbn [torch.data torch.shape torch.numel fold_right]; lia ..
     | reflexivity].
  cbn [bind]. unfold torch.mul at 1, torch.binop, torch.broadcast_shapes, torch.pad.
  cbn [torch.exp torch.unop torch.unsqueeze_last torch.shape app length
       Nat.max Nat.sub repeat torch.bdims].
  assert (Hb : torch.bdim b c = None).
  { unfold torch.bdim.
    destruct (b =? c) eqn:E1; [apply Nat.eqb_eq in E1; congruence|].
    destruct (b =? 1) eqn:E2; [apply Nat.eqb_eq in E2; congruence|].
    destruct (c =? 1) eqn:E3; [apply Nat.eqb_eq in E3; congruence|].
    reflexivity. }
  now rewrite Hb.
Qed.

Lemma ClipActorLoss_advantage_count_mismatch_witness :
  ClipActorLoss.forward (ClipActorLoss.init (2 / 10))
    (torch.mkTensor [2%nat; 1%nat] [Fin 0; Fin 0])
    (torch.mkTensor [2%nat; 1%nat] [Fin 0; Fin 0])
    (torch.mkTensor [3%nat] [Fin 1; Fin 1; Fin 1])
  = Raise RuntimeError.
Proof.
  apply (ClipActorLoss_advantage_count_mismatch (2 / 10) 2 1 3);
    try reflexivity; lia.
Defined.

(** ** ClipCriticLoss.forward: the pessimistic maximum *)






(** ** KLDivLoss.forward on equal distributions *)

Lemma kl_pointwise_equal (ps : list R) :
  Forall (fun p => 0 < p) ps ->
  zip_with Float.sub
    (zip_with KLDivLoss.xlogy (map Fin ps) (map Fin ps))
    (zip_with Float.mul (map Fin ps) (map Fin (map ln ps)))
  = map Fin (map (fun _ => 0) ps).
Proof.
  induction 1 as [|p ps Hp _ IH]; [reflexivity|].
  cbn [map zip_with]. rewrite IH. f_equal.
  cbn [KLDivLoss.xlogy Float.log Float.mul Float.sub Float.neg Float.add].
  rewrite (Rsign_pos p Hp). cbn [Float.mul Float.sub Float.neg Float.add].
  f_equal. lra.
Qed.

Lemma Rsum_zeros {A} (l : list A) : Spec.Rsum (map (fun _ => 0) l) = 0.
Proof.
  induction l as [|x l IH]; [reflexivity|]. cbn [map]. rewrite Rsum_cons, IH. lra.
Qed.

(** X9: when the first argument holds the logarithms of the second (the
    two distributions are the same, with positive probabilities) and the
    batch is not empty, KLDivLoss.forward returns exactly 0, whatever the
    weight. *)
Theorem KLDivLoss_same_distribution (weight : R) (n : nat) (s : list nat)
    (ps : list R) :
  (0 < n)%nat -> length ps = torch.numel (n :: s) ->
  Forall (fun p => 0 < p) ps ->
  KLDivLoss.forward (KLDivLoss.init weight)
    (torch.mkTensor (n :: s) (map Fin (map ln ps)))
    (torch.mkTensor (n :: s) (map Fin ps))
  = Ok (Fin 0).
Proof.
  intros Hn Hlen Hpos.
  assert (Hy : torch.wf (torch.mkTensor (n :: s) (map Fin ps)))
    by (unfold torch.wf; cbn [torch.data torch.shape]; now rewrite length_map).
  assert (Hx : torch.wf (torch.mkTensor (n :: s) (map Fin (map ln ps))))
    by (unfold torch.wf; cbn [torch.data torch.shape]; now rewrite !length_map).
  unfold KLDivLoss.forward, KLDivLoss.kl_div_batchmean, torch.mul, torch.sub.
  rewrite (binop_same_shape KLDivLoss.xlogy _ _ Hy Hy eq_refl). cbn [bind].
  rewrite (binop_same_shape Float.mul _ _ Hy Hx eq_refl). cbn [bind].
  rewrite binop_same_shape;
    [| unfold torch.wf; cbn [torch.data torch.shape];
       rewrite zip_with_length, !length_map; lia ..
     | reflexivity].
  cbn [bind torch.shape torch.data]. unfold torch.sum. cbn [torch.data].
  rewrite (kl_pointwise_equal ps Hpos), Float_sum_Fin, Rsum_zeros.
  cbn [bind Float.div]. rewrite (Rsign_pos (INR n)) by (now apply lt_0_INR).
  unfold Float.mean, Float.sum.
  cbn [fold_left Float.add length Float.div KLDivLoss.init KLDivLoss.weight].
  rewrite (Rsign_pos (INR 1)) by (simpl; lra).
  cbn [Float.mul]. do 2 f_equal.
  assert (Hn0 : INR n <> 0) by (apply not_0_INR; lia).
  simpl. field. exact Hn0.
Qed.

Lemma KLDivLoss_same_distribution_witness :
  KLDivLoss.forward (KLDivLoss.init (1 / 100))
    (torch.mkTensor [1%nat; 2%nat] (map Fin (map ln [1 / 4; 3 / 4])))
    (torch.mkTensor [1%nat; 2%nat] (map Fin [1 / 4; 3 / 4]))
  = Ok (Fin 0).
Proof.
  apply (KLDivLoss_same_distribution (1 / 100) 1 [2%nat] [1 / 4; 3 / 4]).
  - lia.
  - reflexivity.
  - repeat constructor; lra.
Defined.

(** ** simba_orthogonal_loss: which modules count, and the range of the loss *)

Lemma loss_from_no_simba (modules : list Simba.Module_) (loss : float) :
  Forall (fun m => Simba.is_simba m = false) modules ->
  Simba.simba_orthogonal_loss_from modules loss = Ok loss.
Proof.
  induction 1 as [|m modules Hm _ IH]; [reflexivity|].
  cbn [Simba.simba_orthogonal_loss_from]. now rewrite Hm.
Qed.

(** X10: modules that are not instances of the marked class are skipped,
    whatever they hold: on a model without any such module the loss is 0. *)
Theorem simba_orthogonal_loss_no_block (modules : list Simba.Module_) :
  Forall (fun m => Simba.is_simba m = false) modules ->
  Simba.simba_orthogonal_loss modules = Ok (Fin 0).
Proof. apply loss_from_no_simba. Qed.

Lemma simba_orthogonal_loss_no_block_witness :
  Simba.simba_orthogonal_loss
    [ {| Simba.is_simba := false; Simba.layers := [] |};
      {| Simba.is_simba := false;
         Simba.layers := [ {| Simba.branch := [None] |} ] |} ]
  = Ok (Fin 0).
Proof.
  apply simba_orthogonal_loss_no_block. repeat constructor.
Defined.

(** X11: a marked block whose first layer has a branch of fewer than four
    sub-layers makes the whole loss raise IndexError (from [branch[1]] or
    [branch[3]]), whatever comes after it; the unmarked modules before it are
    skipped. *)
Theorem simba_orthogonal_loss_short_branch
    (before after : list Simba.Module_) (block : Simba.Module_)
    (layer : Simba.Layer) (layers : list Simba.Layer) :
  Forall (fun m => Simba.is_simba m = false) before ->
  Simba.is_simba block = true ->
  Simba.layers block = layer :: layers ->
  (length (Simba.branch layer) < 4)%nat ->
  Simba.simba_orthogonal_loss (before ++ block :: after) = Raise IndexError.
Proof.
  intros Hbefore Hblock Hlayers Hshort. unfold Simba.simba_orthogonal_loss.
  generalize (Fin 0) as loss.
  induction Hbefore as [|m before Hm _ IH]; intros loss.
  - cbn [app Simba.simba_orthogonal_loss_from]. rewrite Hblock, Hlayers.
    cbn [Simba.collect_weights].
    destruct (py_index_ok_or_IndexError (Simba.branch layer) 1) as [[w Hw] | Hw];
      rewrite Hw; cbn [bind]; [|reflexivity].
    rewrite (py_index_out_of_range (Simba.branch layer) 3) by lia.
    reflexivity.
  - cbn [app Simba.simba_orthogonal_loss_from]. rewrite Hm. apply IH.
Qed.

Lemma simba_orthogonal_loss_short_branch_witness :
  Simba.simba_orthogonal_loss
    ([ {| Simba.is_simba := false; Simba.layers := [] |} ]
     ++ {| Simba.is_simba := true;
           Simba.layers :=
             [ {| Simba.branch := [None; Some (Sample.vec [1]); None] |} ] |}
     :: [])
  = Raise IndexError.
Proof.
  apply (simba_orthogonal_loss_short_branch _ _ _
           {| Simba.branch := [None; Some (Sample.vec [1]); None] |} []).
  - repeat constructor.
  - reflexivity.
  - reflexivity.
  - simpl. lia.
Defined.










(** ** ExperienceDataset: what a constructed dataset holds, and indexing *)

(** A constructed dataset holds the transitions in concatenation order,
    field by field, with one advantage and one return per transition. *)
Lemma ExperienceDataset_init_fields (gamma lam : R)
    (episodes : list (list Memory)) (ds : ExperienceDataset.instance) :
  ExperienceDataset.init gamma lam episodes = Ok ds ->
  ds = {| ExperienceDataset.advantages :=
            concat (map (utils.get_gae_advantages gamma lam) episodes);
          ExperienceDataset.episodes := concat episodes;
          ExperienceDataset.states := map state (concat episodes);
          ExperienceDataset.actions := map action (concat episodes);
          ExperienceDataset.actions_log_prob :=
            map action_log_prob (concat episodes);
          ExperienceDataset.rewards := map reward (concat episodes);
          ExperienceDataset.done_ := map done (concat episodes);
          ExperienceDataset.values := map value (concat episodes);
          ExperienceDataset.returns :=
            zip_with Float.add (map value (concat episodes))
              (concat (map (utils.get_gae_advantages gamma lam) episodes)) |}.
Proof.
  unfold ExperienceDataset.init. rewrite extend_all_concat. simpl.
  pose proof (concat_gae_length gamma lam episodes) as Hlen.
  destruct (concat episodes) as [|t flat] eqn:Hflat; [discriminate|].
  cbn [ExperienceDataset.unzip6 bind]. unfold utils.get_returns.
  rewrite length_map, Hlen, Nat.eqb_refl. cbn [bind].
  intros H. now inversion H.
Qed.

(** X13: an index at or beyond the length of an ExperienceDataset, or below
    minus the length, raises IndexError (from the first access,
    [self.states[idx]]). *)
Theorem ExperienceDataset_getitem_out_of_range
    (ds : ExperienceDataset.instance) (idx : Z) :
  (idx < - ExperienceDataset.len ds \/ ExperienceDataset.len ds <= idx)%Z ->
  ExperienceDataset.getitem ds idx = Raise IndexError.
Proof.
  intros Hidx. unfold ExperienceDataset.getitem, ExperienceDataset.len in *.
  now rewrite (py_index_out_of_range (ExperienceDataset.states ds) idx Hidx).
Qed.

Lemma ExperienceDataset_getitem_out_of_range_witness :
  exists ds,
    ExperienceDataset.init (99 / 100) (95 / 100) Sample.episodes = Ok ds
    /\ ExperienceDataset.getitem ds 3 = Raise IndexError
    /\ ExperienceDataset.getitem ds (-4) = Raise IndexError.
Proof.
  eexists. split; [reflexivity|]. split.
  - apply (ExperienceDataset_getitem_out_of_range _ 3).
    right. unfold ExperienceDataset.len. simpl. lia.
  - apply (ExperienceDataset_getitem_out_of_range _ (-4)).
    left. unfold ExperienceDataset.len. simpl. lia.
Defined.

Lemma py_index_wrap {A} (l : list A) (i : Z) :
  (0 <= i < Z.of_nat (length l))%Z ->
  py_index l (i - Z.of_nat (length l)) = py_index l i.
Proof.
  intros Hi. unfold py_index.
  destruct (i - Z.of_nat (length l) <? 0)%Z eqn:E1;
    [|apply Z.ltb_ge in E1; lia].
  destruct (i <? 0)%Z eqn:E2; [apply Z.ltb_lt in E2; lia|].
  now replace (i - Z.of_nat (length l) + Z.of_nat (length l))%Z with i by lia.
Qed.

(** X14: on a constructed ExperienceDataset a negative index counts from
    the end, for all eight components at once: the item at i - len is the
    item at i, for every i from 0 below the length. *)
Theorem ExperienceDataset_getitem_negative (gamma lam : R)
    (episodes : list (list Memory)) (ds : ExperienceDataset.instance) (i : Z) :
  ExperienceDataset.init gamma lam episodes = Ok ds ->
  (0 <= i < ExperienceDataset.len ds)%Z ->
  ExperienceDataset.getitem ds (i - ExperienceDataset.len ds)
  = ExperienceDataset.getitem ds i.
Proof.
  intros Hinit Hi. rewrite (ExperienceDataset_init_fields _ _ _ _ Hinit) in *.
  pose proof (concat_gae_length gamma lam episodes) as Hlen.
  unfold ExperienceDataset.getitem, ExperienceDataset.len in *.
  cbn [ExperienceDataset.states ExperienceDataset.actions
       ExperienceDataset.actions_log_prob ExperienceDataset.rewards
       ExperienceDataset.done_ ExperienceDataset.values
       ExperienceDataset.advantages ExperienceDataset.returns] in *.
  remember (length (map state (concat episodes))) as n eqn:Hn.
  assert (Hw : forall (A : Type) (l : list A), length l = n ->
                 py_index l (i - Z.of_nat n) = py_index l i).
  { intros A l Hl. rewrite <- Hl. apply py_index_wrap. rewrite Hl. exact Hi. }
  rewrite length_map in Hn.
  rewrite !Hw; [reflexivity | | | | | | | | ];
    rewrite ?zip_with_length, ?length_map; lia.
Qed.

Lemma ExperienceDataset_getitem_negative_witness :
  exists ds,
    ExperienceDataset.init (99 / 100) (95 / 100) Sample.episodes = Ok ds
    /\ ExperienceDataset.getitem ds (2 - 3) = ExperienceDataset.getitem ds 2.
Proof.
  eexists. split; [reflexivity|].
  apply (ExperienceDataset_getitem_negative (99 / 100) (95 / 100)
           Sample.episodes _ 2 eq_refl).
  unfold ExperienceDataset.len. simpl. lia.
Defined.

(** ** ExperienceAuxDataset: when construction succeeds, and what an item is *)

Lemma shape_eqb_eq (a b : list nat) : torch.shape_eqb a b = true -> a = b.
Proof.
  revert b. induction a as [|x a IH]; intros [|y b] H; try discriminate;
    [reflexivity|].
  cbn [torch.shape_eqb] in H. apply andb_true_iff in H. destruct H as [Hx Ha].
  apply Nat.eqb_eq in Hx. subst y. now rewrite (IH b Ha).
Qed.

Lemma stack_inv (f : MemoryAux -> torch.Tensor) (r0 : MemoryAux)
    (rest : list MemoryAux) (t : torch.Tensor) :
  torch.stack (map f (r0 :: rest)) = Ok t ->
  Forall (fun r => torch.shape (f r) = torch.shape (f r0)) rest.
Proof.
  unfold torch.stack. cbn [map forallb].
  destruct (torch.shape_eqb (torch.shape (f r0)) (torch.shape (f r0))
            && forallb (fun t0 => torch.shape_eqb (torch.shape t0) (torch.shape (f r0)))
                       (map f rest)) eqn:E; [|discriminate].
  intros _. apply andb_true_iff in E. destruct E as [_ E].
  rewrite forallb_forall in E. apply Forall_forall. intros r Hr.
  apply shape_eqb_eq, E, in_map, Hr.
Qed.

(** The dataset built from records whose fields stack. *)
Lemma ExperienceAuxDataset_init_value (r0 : MemoryAux) (rest : list MemoryAux)
    (action_log_probs : option torch.Tensor) :
  Forall (fun r => torch.shape (aux_state r) = torch.shape (aux_state r0)) rest ->
  Forall (fun r => torch.shape (aux_actions r) = torch.shape (aux_actions r0)) rest ->
  Forall (fun r => torch.shape (aux_value r) = torch.shape (aux_value r0)) rest ->
  torch.last_dim (S (length rest) :: torch.shape (aux_state r0)) <> 0%nat ->
  ExperienceAuxDataset.init (r0 :: rest) action_log_probs
  = Ok {| ExperienceAuxDataset.episodes_aux := r0 :: rest;
          ExperienceAuxDataset.states :=
            torch.mkTensor
              [(torch.numel (S (length rest) :: torch.shape (aux_state r0))
                / torch.last_dim (S (length rest) :: torch.shape (aux_state r0)))%nat;
               torch.last_dim (S (length rest) :: torch.shape (aux_state r0))]
              (concat (map torch.data (map aux_state (r0 :: rest))));
          ExperienceAuxDataset.returns :=
            torch.mkTensor
              [torch.numel (S (length rest) :: torch.shape (aux_actions r0)); 1%nat]
              (concat (map torch.data (map aux_actions (r0 :: rest))));
          ExperienceAuxDataset.old_values :=
            torch.mkTensor
              [torch.numel (S (length rest) :: torch.shape (aux_value r0)); 1%nat]
              (concat (map torch.data (map aux_value (r0 :: rest))));
          ExperienceAuxDataset.action_log_probs := action_log_probs |}.
Proof.
  intros Hs Hr Hv Hlast. unfold ExperienceAuxDataset.init.
  cbn [ExperienceAuxDataset.unzip3 bind].
  rewrite (stack_uniform aux_state r0 rest Hs). cbn [bind torch.shape].
  set (shp := S (length rest) :: torch.shape (aux_state r0)) in *.
  unfold torch.view_free at 1. cbn [torch.shape].
  replace (torch.numel [torch.last_dim shp]) with (torch.last_dim shp)
    by (cbn [torch.numel fold_right]; lia).
  apply Nat.eqb_neq in Hlast. rewrite Hlast.
  assert (Hmod : (torch.numel shp mod torch.last_dim shp =? 0)%nat = true).
  { apply Nat.eqb_eq. destruct (last_dim_divides shp) as [q Hq].
    rewrite Hq. apply Nat.Div0.mod_mul. }
  rewrite Hmod. cbn [bind].
  rewrite (stack_uniform aux_actions r0 rest Hr). cbn [bind].
  rewrite view_free_column. cbn [bind].
  rewrite (stack_uniform aux_value r0 rest Hv). cbn [bind].
  rewrite view_free_column. cbn [bind]. reflexivity.
Qed.

Lemma ExperienceAuxDataset_init_shapes (episodes_aux : list MemoryAux)
    (action_log_probs : option torch.Tensor) :
  is_ok (ExperienceAuxDataset.init episodes_aux action_log_probs) = true ->
  exists r0 rest,
    episodes_aux = r0 :: rest
    /\ Forall (fun r => torch.shape (aux_state r) = torch.shape (aux_state r0)) rest
    /\ Forall (fun r => torch.shape (aux_actions r) = torch.shape (aux_actions r0)) rest
    /\ Forall (fun r => torch.shape (aux_value r) = torch.shape (aux_value r0)) rest
    /\ torch.last_dim (S (length rest) :: torch.shape (aux_state r0)) <> 0%nat.
Proof.
  destruct episodes_aux as [|r0 rest]; [discriminate|].
  intros H. exists r0, rest. split; [reflexivity|].
  unfold ExperienceAuxDataset.init in H.
  cbn [ExperienceAuxDataset.unzip3 bind] in H.
  destruct (torch.stack (map aux_state (r0 :: rest))) as [st|e] eqn:Hst;
    [|discriminate].
  pose proof (stack_inv aux_state r0 rest st Hst) as Hs.
  rewrite (stack_uniform aux_state r0 rest Hs) in Hst.
  injection Hst as <-. cbn [bind torch.shape] in H.
  destruct (torch.view_free _ [torch.last_dim
              (S (length rest) :: torch.shape (aux_state r0))])
    as [st'|e] eqn:Hview; [|discriminate].
  cbn [bind] in H.
  destruct (torch.stack (map aux_actions (r0 :: rest))) as [rt|e] eqn:Hrt;
    [|discriminate].
  pose proof (stack_inv aux_actions r0 rest rt Hrt) as Hr.
  cbn [bind] in H.
  destruct (torch.view_free rt [1%nat]) as [rt'|e]; [|discriminate].
  cbn [bind] in H.
  destruct (torch.stack (map aux_value (r0 :: rest))) as [vt|e] eqn:Hvt;
    [|discriminate].
  pose proof (stack_inv aux_value r0 rest vt Hvt) as Hv.
  repeat split; try assumption.
  intros Hzero. unfold torch.view_free in Hview.
  cbn [torch.numel fold_right] in Hview. rewrite Hzero in Hview.
  discriminate.
Qed.

(** X15: construction of an ExperienceAuxDataset succeeds exactly on one
    record or more whose states share one shape, whose returns share one
    shape and whose old values share one shape, the stacked states having a
    last dimension that is not empty; it raises in every other case, and the
    action log-probabilities play no part in that. *)
Theorem ExperienceAuxDataset_init_succeeds_iff (episodes_aux : list MemoryAux)
    (action_log_probs : option torch.Tensor) :
  is_ok (ExperienceAuxDataset.init episodes_aux action_log_probs) = true
  <-> exists r0 rest,
        episodes_aux = r0 :: rest
        /\ Forall (fun r => torch.shape (aux_state r) = torch.shape (aux_state r0)) rest
        /\ Forall (fun r => torch.shape (aux_actions r) = torch.shape (aux_actions r0)) rest
        /\ Forall (fun r => torch.shape (aux_value r) = torch.shape (aux_value r0)) rest
        /\ torch.last_dim (S (length rest) :: torch.shape (aux_state r0)) <> 0%nat.
Proof.
  split.
  - apply ExperienceAuxDataset_init_shapes.
  - intros [r0 [rest [-> [Hs [Hr [Hv Hlast]]]]]].
    now rewrite (ExperienceAuxDataset_init_value r0 rest action_log_probs
                   Hs Hr Hv Hlast).
Qed.

Lemma ExperienceAuxDataset_init_succeeds_iff_witness :
  is_ok (ExperienceAuxDataset.init [Sample.aux0; Sample.aux1] None) = true
  /\ is_ok (ExperienceAuxDataset.init
              [Sample.aux0;
               {| aux_state := Sample.vec [1; 2; 3];
                  aux_actions := torch.scalar (Fin 0);
                  aux_value := torch.scalar (Fin 0) |}]
              None) = false.
Proof.
  split.
  - apply (ExperienceAuxDataset_init_succeeds_iff [Sample.aux0; Sample.aux1] None).
    exists Sample.aux0, [Sample.aux1]. repeat split; repeat constructor.
    discriminate.
  - reflexivity.
Defined.

Lemma index_concat (n : nat) (s : list nat) (datas : list (list float))
    (i : nat) (d : list float) :
  length datas = n ->
  Forall (fun c => length c = torch.numel s) datas ->
  nth_error datas i = Some d ->
  torch.index (torch.mkTensor (n :: s) (concat datas)) (Z.of_nat i)
  = Ok (torch.mkTensor s d).
Proof.
  intros Hn Hlen Hi. unfold torch.index. cbn [torch.shape torch.data].
  subst n. rewrite (chunks_concat (torch.numel s) datas Hlen).
  now rewrite (py_index_nth_error datas i d Hi).
Qed.

(** X16: for records whose states are vectors of d > 0 entries and whose
    returns and old values are 0-dimensional, with one row of action
    log-probabilities per record, the dataset has one row per record and
    the item at i is the flattened state, return and old value of the i-th
    record with the i-th row of the log-probabilities. *)
Theorem ExperienceAuxDataset_getitem_rows (d a : nat) (records : list MemoryAux)
    (log_prob_rows : list (list float)) (i : nat) (r : MemoryAux)
    (row : list float) :
  d <> 0%nat ->
  Forall (vector_record d) records ->
  length log_prob_rows = length records ->
  Forall (fun c => length c = a) log_prob_rows ->
  nth_error records i = Some r ->
  nth_error log_prob_rows i = Some row ->
  exists ds,
    ExperienceAuxDataset.init records
      (Some (torch.mkTensor [length records; a] (concat log_prob_rows)))
    = Ok ds
    /\ ExperienceAuxDataset.len ds = Ok (Z.of_nat (length records))
    /\ ExperienceAuxDataset.getitem ds (Z.of_nat i)
       = Ok (torch.flatten (aux_state r), torch.flatten (aux_actions r),
             torch.flatten (aux_value r), torch.flatten (torch.mkTensor [a] row)).
Proof.
  intros Hd Hrec Hlp Hrows Hi Hrow.
  assert (Hex : exists r0 rest, records = r0 :: rest)
    by (destruct records as [|r0 rest]; [destruct i; discriminate | eauto]).
  destruct Hex as [r0 [rest Erec]].
  assert (H0 : vector_record d r0)
    by (rewrite Erec in Hrec; now apply Forall_inv in Hrec).
  destruct H0 as [Hs0 [_ [Ha0 [_ [Hv0 _]]]]].
  assert (Hrest : Forall (vector_record d) rest)
    by (rewrite Erec in Hrec; now apply Forall_inv_tail in Hrec).
  assert (HN : length records = S (length rest)) by (now rewrite Erec).
  eexists. split.
  { rewrite Erec. apply ExperienceAuxDataset_init_value.
    - eapply Forall_impl; [|exact Hrest]. intros x [Hx _]. congruence.
    - eapply Forall_impl; [|exact Hrest]. intros x [_ [_ [Hx _]]]. congruence.
    - eapply Forall_impl; [|exact Hrest]. intros x [_ [_ [_ [_ [Hx _]]]]].
      congruence.
    - rewrite Hs0. exact Hd. }
  rewrite Hs0, Ha0, Hv0, <- HN.
  change (torch.last_dim [length records; d]) with d.
  replace (torch.numel [length records; d] / d)%nat with (length records)
    by (cbn [torch.numel fold_right]; rewrite Nat.mul_1_r;
        symmetry; now apply Nat.div_mul).
  replace (torch.numel [length records]) with (length records)
    by (cbn [torch.numel fold_right]; lia).
  split; [reflexivity|].
  unfold ExperienceAuxDataset.getitem.
  cbn [ExperienceAuxDataset.states ExperienceAuxDataset.returns
       ExperienceAuxDataset.old_values ExperienceAuxDataset.action_log_probs
       ExperienceAuxDataset.index_opt].
  assert (Hall : forall x, In x records -> vector_record d x)
    by (now apply Forall_forall).
  assert (Hr : vector_record d r) by (apply Hall; eapply nth_error_In; eauto).
  destruct Hr as [Hrs [_ [Hra [_ [Hrv _]]]]].
  rewrite (index_concat (length records) [d] _ i (torch.data (aux_state r))).
  2:{ now rewrite !length_map. }
  2:{ apply Forall_map, Forall_map. eapply Forall_impl; [|exact Hrec].
      intros x [_ [Hx _]]. cbn [torch.numel fold_right]. lia. }
  2:{ now rewrite !nth_error_map, Hi. }
  cbn [bind].
  rewrite (index_concat (length records) [1%nat] _ i (torch.data (aux_actions r))).
  2:{ now rewrite !length_map. }
  2:{ apply Forall_map, Forall_map. eapply Forall_impl; [|exact Hrec].
      intros x [_ [_ [_ [Hx _]]]]. exact Hx. }
  2:{ now rewrite !nth_error_map, Hi. }
  cbn [bind].
  rewrite (index_concat (length records) [1%nat] _ i (torch.data (aux_value r))).
  2:{ now rewrite !length_map. }
  2:{ apply Forall_map, Forall_map. eapply Forall_impl; [|exact Hrec].
      intros x [_ [_ [_ [_ [_ Hx]]]]]. exact Hx. }
  2:{ now rewrite !nth_error_map, Hi. }
  cbn [bind].
  rewrite (index_concat (length records) [a] log_prob_rows i row).
  2:{ exact Hlp. }
  2:{ eapply Forall_impl; [|exact Hrows]. intros c Hc. cbv beta in Hc.
      cbn [torch.numel fold_right]. lia. }
  2:{ exact Hrow. }
  cbn [bind]. unfold torch.flatten. cbn [torch.shape torch.data].
  now rewrite Hrs, Hra, Hrv.
Qed.

Lemma ExperienceAuxDataset_getitem_rows_witness :
  exists ds,
    ExperienceAuxDataset.init [Sample.aux0; Sample.aux1]
      (Some (torch.mkTensor [2%nat; 1%nat] (concat [[Fin (-1)]; [Fin (-2)]])))
    = Ok ds
    /\ ExperienceAuxDataset.len ds = Ok 2%Z
    /\ ExperienceAuxDataset.getitem ds 1
       = Ok (torch.flatten (aux_state Sample.aux1),
             torch.flatten (aux_actions Sample.aux1),
             torch.flatten (aux_value Sample.aux1),
             torch.flatten (torch.mkTensor [1%nat] [Fin (-2)])).
Proof.
  apply (ExperienceAuxDataset_getitem_rows 2 1 [Sample.aux0; Sample.aux1]
           [[Fin (-1)]; [Fin (-2)]] 1 Sample.aux1 [Fin (-2)]);
    try reflexivity.
  - discriminate.
  - repeat constructor.
  - repeat constructor.
Defined.

(** X17: the rows of a supplied action_log_probs are never checked against
    the rows of the dataset, so a tensor with fewer rows makes indexed
    access raise IndexError at every index from its row count on (and a
    0-dimensional one at every index). *)
Theorem ExperienceAuxDataset_getitem_beyond_log_probs
    (ds : ExperienceAuxDataset.instance) (log_probs : torch.Tensor) (idx : Z) :
  ExperienceAuxDataset.action_log_probs ds = Some log_probs ->
  (torch.shape log_probs = []
   \/ exists n s, torch.shape log_probs = n :: s /\ (Z.of_nat n <= idx)%Z) ->
  ExperienceAuxDataset.getitem ds idx = Raise IndexError.
Proof.
  intros Hlp Hshape. unfold ExperienceAuxDataset.getitem.
  destruct (index_ok_or_IndexError (ExperienceAuxDataset.states ds) idx)
    as [[s0 Hs] | Hs]; rewrite Hs; cbn [bind]; [|reflexivity].
  destruct (index_ok_or_IndexError (ExperienceAuxDataset.returns ds) idx)
    as [[r0 Hr] | Hr]; rewrite Hr; cbn [bind]; [|reflexivity].
  destruct (index_ok_or_IndexError (ExperienceAuxDataset.old_values ds) idx)
    as [[v0 Hv] | Hv]; rewrite Hv; cbn [bind]; [|reflexivity].
  rewrite Hlp. cbn [ExperienceAuxDataset.index_opt]. unfold torch.index.
  destruct Hshape as [Hnil | [n [s [Hcons Hidx]]]].
  - now rewrite Hnil.
  - rewrite Hcons.
    rewrite py_index_out_of_range; [reflexivity|].
    rewrite chunks_length. right. exact Hidx.
Qed.

Lemma ExperienceAuxDataset_getitem_beyond_log_probs_witness :
  exists ds,
    ExperienceAuxDataset.init [Sample.aux0; Sample.aux1]
      (Some (torch.mkTensor [1%nat; 1%nat] [Fin (-1)])) = Ok ds
    /\ ExperienceAuxDataset.len ds = Ok 2%Z
    /\ ExperienceAuxDataset.getitem ds 1 = Raise IndexError.
Proof.
  eexists. split; [reflexivity|]. split; [reflexivity|].
  eapply ExperienceAuxDataset_getitem_beyond_log_probs.
  - reflexivity.
  - right. exists 1%nat, [1%nat]. split; [reflexivity | simpl; lia].
Defined.

(** X18: the length of an ExperienceAuxDataset counts rows of the stacked
    states, not records: with 0-dimensional returns there is one return per
    record, so every index from the number of records on raises IndexError,
    also where the length is larger (states of two or more dimensions). *)
Theorem ExperienceAuxDataset_length_counts_state_rows (r0 : MemoryAux)
    (rest : list MemoryAux) (action_log_probs : option torch.Tensor)
    (ds : ExperienceAuxDataset.instance) (idx : Z) :
  ExperienceAuxDataset.init (r0 :: rest) action_log_probs = Ok ds ->
  torch.shape (aux_actions r0) = [] ->
  (Z.of_nat (S (length rest)) <= idx)%Z ->
  ExperienceAuxDataset.len ds
  = Ok (Z.of_nat
          (torch.numel (S (length rest) :: torch.shape (aux_state r0))
           / torch.last_dim (S (length rest) :: torch.shape (aux_state r0))))
  /\ ExperienceAuxDataset.getitem ds idx = Raise IndexError.
Proof.
  intros Hinit Hscalar Hidx.
  assert (Hok : is_ok (ExperienceAuxDataset.init (r0 :: rest) action_log_probs)
                = true) by (now rewrite Hinit).
  destruct (ExperienceAuxDataset_init_shapes _ _ Hok)
    as [r0' [rest' [E [Hs [Hr [Hv Hlast]]]]]].
  injection E as <- <-.
  rewrite (ExperienceAuxDataset_init_value r0 rest action_log_probs Hs Hr Hv Hlast)
    in Hinit.
  injection Hinit as <-. split; [reflexivity|].
  unfold ExperienceAuxDataset.getitem.
  cbn [ExperienceAuxDataset.states ExperienceAuxDataset.returns].
  match goal with
  | |- context [torch.index ?t idx] =>
      destruct (index_ok_or_IndexError t idx) as [[s0 Hs0] | Hs0]
  end; rewrite Hs0; cbn [bind]; [|reflexivity].
  unfold torch.index at 1. cbn [torch.shape torch.data].
  rewrite py_index_out_of_range; [reflexivity|].
  rewrite chunks_length, Hscalar. cbn [torch.numel fold_right].
  right. lia.
Qed.

Lemma ExperienceAuxDataset_length_counts_state_rows_witness :
  exists ds,
    ExperienceAuxDataset.init
      [ {| aux_state := torch.mkTensor [2%nat; 2%nat] [Fin 1; Fin 2; Fin 3; Fin 4];
           aux_actions := torch.scalar (Fin 5);
           aux_value := torch.scalar (Fin 6) |} ]
      None = Ok ds
    /\ ExperienceAuxDataset.len ds = Ok 2%Z
    /\ ExperienceAuxDataset.getitem ds 1 = Raise IndexError.
Proof.
  eexists. split; [reflexivity|].
  exact (ExperienceAuxDataset_length_counts_state_rows
           {| aux_state := torch.mkTensor [2%nat; 2%nat] [Fin 1; Fin 2; Fin 3; Fin 4];
              aux_actions := torch.scalar (Fin 5);
              aux_value := torch.scalar (Fin 6) |}
           [] None _ 1%Z eq_refl eq_refl ltac:(simpl; lia)).
Defined.

(** ** The networks of model.py *)

Lemma bdims_snoc_eight (a b s : list nat) :
  torch.bdims a (b ++ [8%nat]) = Some s -> exists t, s = t ++ [8%nat].
Proof.
  revert b s. induction a as [|x a IH]; intros b s H.
  - destruct b; discriminate.
  - destruct b as [|y b].
    + cbn [app torch.bdims] in H.
      destruct (torch.bdim x 8) as [d|] eqn:Hd; [|discriminate].
      destruct a; cbn [torch.bdims] in H; [|discriminate].
      injection H as <-. exists [].
      unfold torch.bdim in Hd.
      destruct (x =? 8)%nat eqn:E.
      { apply Nat.eqb_eq in E. injection Hd as <-. now subst x. }
      destruct (x =? 1)%nat; [now injection Hd as <-|]. discriminate.
    + cbn [app torch.bdims] in H.
      destruct (torch.bdim x y) as [d|]; [|discriminate].
      destruct (torch.bdims a (b ++ [8%nat])) as [ds|] eqn:Hds; [|discriminate].
      injection H as <-. destruct (IH _ _ Hds) as [t ->]. now exists (d :: t).
Qed.

(** Whatever is divided by [state_scale] has 8 entries along its last
    dimension. *)
Lemma div_state_scale_shape (inputs x : torch.Tensor) :
  nn.div inputs state_scale = Ok x ->
  exists t, torch.shape x = t ++ [8%nat].
Proof.
  unfold nn.div, torch.binop, torch.broadcast_shapes. intros H.
  destruct (torch.bdims _ _) as [s|] eqn:Hs; [|discriminate].
  injection H as <-. cbn [torch.shape].
  unfold torch.pad at 2 in Hs. cbn [state_scale torch.shape] in Hs.
  exact (bdims_snoc_eight _ _ _ Hs).
Qed.

Lemma div_ok_or_RuntimeError (inputs : torch.Tensor) :
  (exists x, nn.div inputs state_scale = Ok x)
  \/ nn.div inputs state_scale = Raise RuntimeError.
Proof.
  unfold nn.div, torch.binop.
  destruct (torch.broadcast_shapes _ _); [left; eauto | now right].
Qed.

Lemma last_dim_snoc (t : list nat) (k : nat) : torch.last_dim (t ++ [k]) = k.
Proof. unfold torch.last_dim. apply last_last. Qed.

Lemma Linear_forward_mismatch (l : nn.Linear.instance) (x : torch.Tensor)
    (o i : nat) :
  torch.shape (nn.Linear.weight l) = [o; i] ->
  torch.last_dim (torch.shape x) <> i ->
  nn.Linear.forward l x = Raise RuntimeError.
Proof.
  intros Hw Hx. unfold nn.Linear.forward. rewrite Hw.
  destruct (torch.ndim x =? 0)%nat; [reflexivity|].
  apply Nat.eqb_neq in Hx. now rewrite Hx.
Qed.

(** Broadcasting a shape that ends in [k], other than 1 and 8, against the
    8 entries of [state_scale] fails. *)
Lemma bdims_snoc_mismatch (a b : list nat) (k : nat) :
  k <> 1%nat -> k <> 8%nat ->
  torch.bdims (a ++ [k]) (b ++ [8%nat]) = None.
Proof.
  intros H1 H8. revert b. induction a as [|x a IH]; intros b.
  - destruct b as [|y b]; cbn [app torch.bdims].
    + unfold torch.bdim.
      destruct (k =? 8)%nat eqn:E; [apply Nat.eqb_eq in E; contradiction|].
      destruct (k =? 1)%nat eqn:E'; [apply Nat.eqb_eq in E'; contradiction|].
      reflexivity.
    + destruct (torch.bdim k y); [|reflexivity].
      destruct b; reflexivity.
  - destruct b as [|y b]; cbn [app torch.bdims].
    + destruct (torch.bdim x 8); [|reflexivity].
      destruct a; reflexivity.
    + rewrite IH. destruct (torch.bdim x y); reflexivity.
Qed.

Lemma div_state_scale_mismatch (inputs : torch.Tensor) (batch : list nat) (k : nat) :
  torch.shape inputs = batch ++ [k] -> k <> 1%nat -> k <> 8%nat ->
  nn.div inputs state_scale = Raise RuntimeError.
Proof.
  intros Hs H1 H8. unfold nn.div, torch.binop, torch.broadcast_shapes.
  rewrite Hs. cbn [state_scale torch.shape].
  unfold torch.pad.
  replace (Nat.max (length (batch ++ [k])) (length [8%nat]) - length (batch ++ [k]))%nat
    with 0%nat by (rewrite length_app; cbn [length]; lia).
  cbn [repeat app].
  change (repeat 1%nat (Nat.max (length (batch ++ [k])) (length [8%nat]) - length [8%nat])
          ++ [8%nat]) with
    (repeat 1%nat (Nat.max (length (batch ++ [k])) 1 - 1) ++ [8%nat]).
  now rewrite bdims_snoc_mismatch.
Qed.

(** X19: [Actor.forward] raises RuntimeError on every input when the first
    layer does not take 8 features, and for any actor when the last
    dimension of the input is neither 1 nor 8: the input is divided by a
    vector of 8 entries before the first layer sees it. *)
Theorem Actor_forward_shape_errors (a : Actor.instance) (inputs : torch.Tensor)
    (o i : nat) :
  torch.shape (nn.Linear.weight (Actor.fc1 a)) = [o; i] ->
  (i <> 8%nat
   \/ exists batch k, torch.shape inputs = batch ++ [k] /\ k <> 1%nat /\ k <> 8%nat) ->
  Actor.forward a inputs = Raise RuntimeError.
Proof.
  intros Hw H. unfold Actor.forward.
  destruct (div_ok_or_RuntimeError inputs) as [[x Hx] | Hx];
    rewrite Hx; cbn [bind]; [|reflexivity].
  destruct H as [Hi | [batch [k [Hs [H1 H8]]]]].
  - destruct (div_state_scale_shape _ _ Hx) as [t Ht].
    rewrite (Linear_forward_mismatch _ _ o i Hw); [reflexivity|].
    rewrite Ht, last_dim_snoc. congruence.
  - rewrite (div_state_scale_mismatch _ _ _ Hs H1 H8) in Hx. discriminate.
Qed.

(** X20: [Critic.forward] raises RuntimeError on every input when the first
    layer does not take 8 features, and for any critic when the last
    dimension of the input is neither 1 nor 8. *)
Theorem Critic_forward_shape_errors (c : Critic.instance) (inputs : torch.Tensor)
    (o i : nat) :
  torch.shape (nn.Linear.weight (Critic.fc1 c)) = [o; i] ->
  (i <> 8%nat
   \/ exists batch k, torch.shape inputs = batch ++ [k] /\ k <> 1%nat /\ k <> 8%nat) ->
  Critic.forward c inputs = Raise RuntimeError.
Proof.
  intros Hw H. unfold Critic.forward.
  destruct (div_ok_or_RuntimeError inputs) as [[x Hx] | Hx];
    rewrite Hx; cbn [bind]; [|reflexivity].
  destruct H as [Hi | [batch [k [Hs [H1 H8]]]]].
  - destruct (div_state_scale_shape _ _ Hx) as [t Ht].
    rewrite (Linear_forward_mismatch _ _ o i Hw); [reflexivity|].
    rewrite Ht, last_dim_snoc. congruence.
  - rewrite (div_state_scale_mismatch _ _ _ Hs H1 H8) in Hx. discriminate.
Qed.

Lemma Linear_init_layer (i o : nat) (w b : nat -> float) :
  linear_layer i o (nn.Linear.init i o w b).
Proof.
  unfold linear_layer, torch.wf. cbn.
  rewrite !length_map, !length_seq. repeat split; lia.
Qed.

Lemma Linear_forward_ok (l : nn.Linear.instance) (x : torch.Tensor)
    (batch : list nat) (i o : nat) :
  linear_layer i o l -> torch.shape x = batch ++ [i] ->
  exists y,
    nn.Linear.forward l x = Ok y
    /\ torch.shape y = batch ++ [o]
    /\ torch.wf y
    /\ torch.data y
       = concat (map (fun r =>
                        zip_with (fun w b => Float.add (torch.dot r w) b)
                                 (torch.rows (nn.Linear.weight l))
                                 (torch.data (nn.Linear.bias l)))
                     (torch.rows x)).
Proof.
  intros [Hw [_ [Hb Hbw]]] Hx. eexists. split; [|split; [|split]].
  - unfold nn.Linear.forward. rewrite Hw.
    unfold torch.ndim. rewrite Hx, length_app, last_dim_snoc, Nat.eqb_refl.
    replace (length batch + length [i] =? 0)%nat with false
      by (symmetry; apply Nat.eqb_neq; simpl; lia).
    rewrite removelast_last. reflexivity.
  - reflexivity.
  - unfold torch.wf. cbn [torch.shape torch.data].
    rewrite (length_concat_uniform o).
    + rewrite length_map. unfold torch.rows. rewrite chunks_length.
      rewrite Hx, removelast_last, numel_app. simpl. lia.
    + apply Forall_map, Forall_forall. intros r _.
      rewrite zip_with_length. unfold torch.rows. rewrite chunks_length.
      rewrite Hw. cbn [removelast torch.numel fold_right].
      unfold torch.wf in Hbw. rewrite Hbw, Hb. simpl. lia.
  - reflexivity.
Qed.

Lemma tanh_shape (t : torch.Tensor) : torch.shape (nn.tanh t) = torch.shape t.
Proof. reflexivity. Qed.

Lemma bdims_ones (c : list nat) (n : nat) :
  torch.bdims (c ++ [n]) (repeat 1%nat (length c) ++ [n]) = Some (c ++ [n]).
Proof.
  induction c as [|x c IH]; cbn [length repeat app torch.bdims].
  - now rewrite bdim_same.
  - now rewrite bdim_one_r, IH.
Qed.

Lemma broadcast_state_scale (batch : list nat) :
  torch.broadcast_shapes (batch ++ [8%nat]) [8%nat] = Some (batch ++ [8%nat]).
Proof.
  unfold torch.broadcast_shapes, torch.pad.
  replace (Nat.max (length (batch ++ [8%nat])) (length [8%nat]))
    with (S (length batch)) by (rewrite length_app; cbn [length]; lia).
  replace (S (length batch) - length (batch ++ [8%nat]))%nat with 0%nat
    by (rewrite length_app; cbn [length]; lia).
  cbn [repeat app length]. rewrite Nat.sub_succ, Nat.sub_0_r.
  apply bdims_ones.
Qed.

Lemma div_state_scale_ok (inputs : torch.Tensor) (batch : list nat) :
  torch.shape inputs = batch ++ [8%nat] ->
  exists x, nn.div inputs state_scale = Ok x
            /\ torch.shape x = batch ++ [8%nat]
            /\ torch.data x
               = zip_with Float.div
                   (torch.broadcast_to inputs (batch ++ [8%nat]))
                   (torch.broadcast_to state_scale (batch ++ [8%nat])).
Proof.
  intros Hs. unfold nn.div, torch.binop. rewrite Hs.
  change (torch.shape state_scale) with [8%nat].
  rewrite broadcast_state_scale. eexists. split; [reflexivity|].
  split; reflexivity.
Qed.

(** X21: on a batch of states with 8 entries each, whatever the entries and
    the parameters, [Critic.forward] returns one value per state: a tensor of
    the batch's shape followed by 1. *)
Theorem Critic_forward_shape (c : Critic.instance) (inputs : torch.Tensor)
    (batch : list nat) :
  linear_layer 8 64 (Critic.fc1 c) ->
  linear_layer 64 64 (Critic.fc2 c) ->
  linear_layer 64 1 (Critic.value c) ->
  torch.shape inputs = batch ++ [8%nat] ->
  exists v,
    Critic.forward c inputs = Ok v
    /\ torch.shape v = batch ++ [1%nat]
    /\ length (torch.data v) = torch.numel batch.
Proof.
  intros H1 H2 H3 Hs. unfold Critic.forward.
  destruct (div_state_scale_ok inputs batch Hs) as [x [Hx [Hxs _]]].
  rewrite Hx. cbn [bind].
  destruct (Linear_forward_ok _ x batch 8 64 H1 Hxs) as [h1 [E1 [S1 _]]].
  rewrite E1. cbn [bind].
  destruct (Linear_forward_ok _ (nn.tanh h1) batch 64 64 H2 S1) as [h2 [E2 [S2 _]]].
  rewrite E2. cbn [bind].
  destruct (Linear_forward_ok _ (nn.tanh h2) batch 64 1 H3 S2) as [v [E3 [S3 [W3 _]]]].
  exists v. split; [exact E3|]. split; [exact S3|].
  unfold torch.wf in W3. rewrite W3, S3, numel_app. simpl. lia.
Qed.

(** *** A NaN in the state *)

Lemma fold_add_NaN (l : list float) : fold_left Float.add l NaN = NaN.
Proof. induction l as [|x l IH]; [reflexivity|]. exact IH. Qed.

Lemma sum_NaN (l : list float) : In NaN l -> Float.sum l = NaN.
Proof.
  unfold Float.sum. generalize (Fin 0). induction l as [|x l IH]; intros a H.
  - destruct H.
  - cbn [fold_left]. destruct H as [-> | H].
    + replace (Float.add a NaN) with NaN by (now destruct a).
      apply fold_add_NaN.
    + now apply IH.
Qed.

Lemma zip_mul_NaN (r w : list float) :
  In NaN r -> (length r <= length w)%nat -> In NaN (zip_with Float.mul r w).
Proof.
  revert w. induction r as [|x r IH]; intros w H Hl; [destruct H|].
  destruct w as [|y w]; [simpl in Hl; lia|].
  cbn [zip_with]. destruct H as [-> | H].
  - left. reflexivity.
  - right. apply IH; [exact H | simpl in Hl; lia].
Qed.

Lemma dot_NaN (r w : list float) :
  In NaN r -> (length r <= length w)%nat -> torch.dot r w = NaN.
Proof. intros H Hl. unfold torch.dot. now apply sum_NaN, zip_mul_NaN. Qed.

Lemma rows_cover (t : torch.Tensor) (batch : list nat) (k : nat) (x : float) :
  torch.shape t = batch ++ [k] -> torch.wf t -> In x (torch.data t) ->
  exists r, In r (torch.rows t) /\ In x r /\ length r = k.
Proof.
  intros Hs Hw Hx. unfold torch.rows. rewrite Hs, removelast_last, last_dim_snoc.
  assert (Hlen : length (torch.data t) = (torch.numel batch * k)%nat).
  { unfold torch.wf in Hw. rewrite Hw, Hs, numel_app. simpl. lia. }
  rewrite <- (concat_chunks _ _ _ Hlen) in Hx.
  apply in_concat in Hx. destruct Hx as [r [Hr Hxr]].
  exists r. split; [exact Hr|]. split; [exact Hxr|].
  pose proof (chunks_sizes _ _ _ Hlen) as Hsz.
  rewrite Forall_forall in Hsz. now apply Hsz.
Qed.

(** A linear layer with an output passes a NaN of its input on. *)
Lemma Linear_forward_NaN (l : nn.Linear.instance) (x y : torch.Tensor)
    (batch : list nat) (i o : nat) :
  linear_layer i o l -> (0 < o)%nat ->
  torch.shape x = batch ++ [i] -> torch.wf x -> In NaN (torch.data x) ->
  torch.data y
  = concat (map (fun r =>
                   zip_with (fun w b => Float.add (torch.dot r w) b)
                            (torch.rows (nn.Linear.weight l))
                            (torch.data (nn.Linear.bias l)))
                (torch.rows x)) ->
  In NaN (torch.data y).
Proof.
  intros [Hw [Hww [Hb Hbw]]] Ho Hx Hxw Hnan ->.
  destruct (rows_cover x batch i NaN Hx Hxw Hnan) as [r [Hr [Hin Hlen]]].
  apply in_concat. eexists. split; [apply in_map; exact Hr|].
  assert (Hrows : Forall (fun c => length c = i) (torch.rows (nn.Linear.weight l))).
  { unfold torch.rows. rewrite Hw. cbn [removelast torch.last_dim last].
    apply chunks_sizes. unfold torch.wf in Hww. rewrite Hww, Hw. simpl. lia. }
  assert (Hn : length (torch.rows (nn.Linear.weight l)) = o).
  { unfold torch.rows. rewrite chunks_length, Hw. simpl. lia. }
  assert (Hbn : length (torch.data (nn.Linear.bias l)) = o).
  { unfold torch.wf in Hbw. rewrite Hbw, Hb. simpl. lia. }
  destruct (torch.rows (nn.Linear.weight l)) as [|w ws]; [simpl in Hn; lia|].
  destruct (torch.data (nn.Linear.bias l)) as [|b bs]; [simpl in Hbn; lia|].
  cbn [zip_with]. left.
  rewrite dot_NaN; [reflexivity | exact Hin |].
  inversion Hrows; subst. lia.
Qed.

Lemma tanh_NaN (t : torch.Tensor) :
  In NaN (torch.data t) -> In NaN (torch.data (nn.tanh t)).
Proof.
  intros H. unfold nn.tanh, torch.unop. cbn [torch.data].
  change NaN with (nn.tanh_entry NaN). now apply in_map.
Qed.

Lemma div_state_scale_NaN (inputs x : torch.Tensor) (batch : list nat) :
  torch.shape inputs = batch ++ [8%nat] -> torch.wf inputs ->
  In NaN (torch.data inputs) ->
  torch.data x
  = zip_with Float.div
      (torch.broadcast_to inputs (batch ++ [8%nat]))
      (torch.broadcast_to state_scale (batch ++ [8%nat])) ->
  In NaN (torch.data x).
Proof.
  intros Hs Hw Hnan ->. unfold torch.broadcast_to at 1.
  rewrite Hs, pad_same, expand_same by (unfold torch.wf in Hw; now rewrite Hw, Hs).
  assert (Hlen : length (torch.broadcast_to state_scale (batch ++ [8%nat]))
                 = length (torch.data inputs)).
  { unfold torch.broadcast_to. unfold torch.wf in Hw. rewrite Hw, Hs.
    apply expand_length.
    - change (torch.shape state_scale) with [8%nat]. unfold torch.pad.
      rewrite length_app. cbn [length].
      replace (length batch + 1 - 1)%nat with (length batch) by lia.
      destruct (bdims_expands _ _ _ (bdims_ones batch 8)) as [_ E]. exact E.
    - now rewrite numel_pad. }
  destruct (In_nth_error _ _ Hnan) as [p Hp].
  assert (Hp' : (p < length (torch.data inputs))%nat)
    by (apply nth_error_Some; congruence).
  destruct (nth_error (torch.broadcast_to state_scale (batch ++ [8%nat])) p)
    as [y|] eqn:Hy.
  - apply (nth_error_In _ p).
    rewrite (zip_with_nth_error Float.div _ _ p NaN y Hp Hy). reflexivity.
  - apply nth_error_None in Hy. lia.
Qed.

Lemma tanh_wf (t : torch.Tensor) : torch.wf t -> torch.wf (nn.tanh t).
Proof. apply unop_wf. Qed.

Lemma div_state_scale_wf (inputs x : torch.Tensor) :
  torch.wf inputs -> nn.div inputs state_scale = Ok x -> torch.wf x.
Proof. intros Hw H. now apply (binop_wf Float.div inputs state_scale x). Qed.

(** *** The distribution of the actor *)

Lemma pad_length_pad (r : nat) (s : list nat) :
  torch.pad (length (torch.pad r s)) s = torch.pad r s.
Proof.
  rewrite pad_length. unfold torch.pad. f_equal. f_equal. lia.
Qed.

(** The mean of shape [batch ++ [n]] against the standard deviation of shape
    [[1; n]]: the mean's shape, with a 1 in front when it has one dimension
    only. *)
Lemma broadcast_log_std (batch : list nat) (n : nat) :
  torch.broadcast_shapes (batch ++ [n]) [1%nat; n]
  = Some (torch.pad 2 (batch ++ [n])).
Proof.
  unfold torch.broadcast_shapes. destruct batch as [|x batch].
  - cbn [app length Nat.max]. unfold torch.pad. cbn [length Nat.sub repeat app].
    cbn [torch.bdims]. now rewrite !bdim_same.
  - replace (Nat.max (length ((x :: batch) ++ [n])) (length [1%nat; n]))
      with (S (S (length batch))) by (rewrite length_app; cbn [length]; lia).
    unfold torch.pad.
    replace (S (S (length batch)) - length ((x :: batch) ++ [n]))%nat with 0%nat
      by (rewrite length_app; cbn [length]; lia).
    replace (2 - length ((x :: batch) ++ [n]))%nat with 0%nat
      by (rewrite length_app; cbn [length]; lia).
    cbn [length Nat.sub repeat]. rewrite Nat.sub_0_r.
    change ([] ++ (x :: batch) ++ [n]) with ((x :: batch) ++ [n]).
    change (repeat 1%nat (length batch) ++ [1%nat; n])
      with (repeat 1%nat (length batch) ++ [1%nat] ++ [n]).
    rewrite (app_assoc (repeat 1%nat (length batch)) [1%nat] [n]).
    rewrite <- repeat_cons.
    change (1%nat :: repeat 1%nat (length batch))
      with (repeat 1%nat (length (x :: batch))).
    apply bdims_ones.
Qed.

Lemma chunks_incl {A} (n k : nat) (d c : list A) (x : A) :
  In c (chunks n k d) -> In x c -> In x d.
Proof.
  revert d. induction n as [|n IH]; intros d Hc Hx; [destruct Hc|].
  cbn [chunks] in Hc. rewrite <- (firstn_skipn k d). apply in_or_app.
  destruct Hc as [<- | Hc]; [now left|]. right. now apply IH.
Qed.

(** Broadcasting only repeats entries. *)
Lemma expand_incl {A} (src dst : list nat) (d : list A) (x : A) :
  In x (torch.expand src dst d) -> In x d.
Proof.
  revert dst d. induction src as [|n src IH]; intros dst d H; [exact H|].
  destruct dst as [|m dst]; [exact H|].
  cbn [torch.expand] in H. destruct (n =? m)%nat.
  - apply in_concat in H. destruct H as [l [Hl Hx]].
    apply in_map_iff in Hl. destruct Hl as [c [<- Hc]].
    apply IH in Hx. exact (chunks_incl _ _ _ _ _ Hc Hx).
  - apply in_concat in H. destruct H as [l [Hl Hx]].
    apply repeat_spec in Hl. subst l. now apply IH in Hx.
Qed.

Lemma forallb_real_NaN (l : list float) :
  In NaN l -> forallb normal.Normal.real l = false.
Proof.
  induction l as [|x l IH]; intros H; [destruct H|].
  cbn [forallb]. destruct H as [-> | H]; [reflexivity|].
  rewrite IH by exact H. apply andb_false_r.
Qed.

(** The mean, read at the shape of the distribution, keeps its entries. *)
Lemma broadcast_loc (mu : torch.Tensor) (batch : list nat) (n : nat) :
  torch.shape mu = batch ++ [n] -> torch.wf mu ->
  torch.broadcast_to mu (torch.pad 2 (batch ++ [n])) = torch.data mu.
Proof.
  intros Hs Hw. unfold torch.broadcast_to.
  rewrite Hs, pad_length_pad. apply expand_same.
  unfold torch.wf in Hw. now rewrite numel_pad, Hw, Hs.
Qed.

(** The layers of the actor, one after the other, on a batch of states. *)
Lemma Actor_forward_mu (a : Actor.instance) (inputs : torch.Tensor)
    (batch : list nat) (n : nat) :
  linear_layer 8 64 (Actor.fc1 a) ->
  linear_layer 64 64 (Actor.fc2 a) ->
  linear_layer 64 n (Actor.mu a) ->
  torch.shape inputs = batch ++ [8%nat] ->
  exists x h1 h2 mu,
    Actor.forward a inputs = normal.Normal.init mu (torch.exp (Actor.log_std a))
    /\ torch.shape mu = batch ++ [n] /\ torch.wf mu
    /\ torch.shape x = batch ++ [8%nat]
    /\ torch.data x
       = zip_with Float.div
           (torch.broadcast_to inputs (batch ++ [8%nat]))
           (torch.broadcast_to state_scale (batch ++ [8%nat]))
    /\ nn.div inputs state_scale = Ok x
    /\ nn.Linear.forward (Actor.fc1 a) x = Ok h1
    /\ torch.shape h1 = batch ++ [64%nat] /\ torch.wf h1
    /\ nn.Linear.forward (Actor.fc2 a) (nn.tanh h1) = Ok h2
    /\ torch.shape h2 = batch ++ [64%nat] /\ torch.wf h2
    /\ nn.Linear.forward (Actor.mu a) (nn.tanh h2) = Ok mu.
Proof.
  intros H1 H2 H3 Hs. unfold Actor.forward.
  destruct (div_state_scale_ok inputs batch Hs) as [x [Hx [Hxs Hxd]]].
  destruct (Linear_forward_ok _ x batch 8 64 H1 Hxs) as [h1 [E1 [S1 [W1 _]]]].
  destruct (Linear_forward_ok _ (nn.tanh h1) batch 64 64 H2 S1)
    as [h2 [E2 [S2 [W2 _]]]].
  destruct (Linear_forward_ok _ (nn.tanh h2) batch 64 n H3 S2)
    as [mu [E3 [S3 [W3 _]]]].
  exists x, h1, h2, mu. rewrite Hx. cbn [bind]. rewrite E1. cbn [bind].
  rewrite E2. cbn [bind]. rewrite E3. cbn [bind].
  repeat split; assumption.
Qed.

(** X22: a distribution returned by [Actor.forward] for a batch of states
    with 8 entries each has mean and standard deviation of the batch's shape
    followed by the number of actions, with a 1 in front for a single
    unbatched state (the standard deviation is kept with shape
    (1, n_actions)); no entry of the mean is NaN and every standard deviation
    is positive. *)
Theorem Actor_forward_distribution (a : Actor.instance) (inputs : torch.Tensor)
    (batch : list nat) (n : nat) (d : normal.Normal.instance) :
  linear_layer 8 64 (Actor.fc1 a) ->
  linear_layer 64 64 (Actor.fc2 a) ->
  linear_layer 64 n (Actor.mu a) ->
  torch.shape (Actor.log_std a) = [1%nat; n] ->
  torch.shape inputs = batch ++ [8%nat] ->
  Actor.forward a inputs = Ok d ->
  torch.shape (normal.Normal.loc d) = torch.pad 2 (batch ++ [n])
  /\ torch.shape (normal.Normal.scale d) = torch.pad 2 (batch ++ [n])
  /\ Forall (fun x => Float.is_nan x = false) (torch.data (normal.Normal.loc d))
  /\ Forall (fun x => normal.Normal.positive x = true)
            (torch.data (normal.Normal.scale d)).
Proof.
  intros H1 H2 H3 Hl Hs H.
  destruct (Actor_forward_mu a inputs batch n H1 H2 H3 Hs)
    as [x [h1 [h2 [mu [E [Sm _]]]]]].
  rewrite E in H. unfold normal.Normal.init in H.
  change (torch.shape (torch.exp (Actor.log_std a)))
    with (torch.shape (Actor.log_std a)) in H.
  rewrite Sm, Hl, broadcast_log_std in H. cbn [torch.data] in H.
  destruct (forallb normal.Normal.real _ && forallb normal.Normal.positive _)
    eqn:Hv; [|discriminate].
  injection H as <-. cbn [normal.Normal.loc normal.Normal.scale torch.shape torch.data].
  apply andb_true_iff in Hv. destruct Hv as [Hr Hp].
  rewrite forallb_forall in Hr, Hp.
  repeat split.
  - apply Forall_forall. intros y Hy. specialize (Hr y Hy).
    unfold normal.Normal.real in Hr. now destruct (Float.is_nan y).
  - apply Forall_forall. exact Hp.
Qed.

(** X23: a NaN anywhere in a batch of states makes [Actor.forward] raise
    ValueError (the NaN reaches the mean, which the distribution refuses),
    for an actor with one action or more. *)
Theorem Actor_forward_nan_state (a : Actor.instance) (inputs : torch.Tensor)
    (batch : list nat) (n : nat) :
  linear_layer 8 64 (Actor.fc1 a) ->
  linear_layer 64 64 (Actor.fc2 a) ->
  linear_layer 64 n (Actor.mu a) ->
  (0 < n)%nat ->
  torch.shape (Actor.log_std a) = [1%nat; n] ->
  torch.shape inputs = batch ++ [8%nat] ->
  torch.wf inputs ->
  In NaN (torch.data inputs) ->
  Actor.forward a inputs = Raise ValueError.
Proof.
  intros H1 H2 H3 Hn Hl Hs Hw Hnan.
  destruct (Actor_forward_mu a inputs batch n H1 H2 H3 Hs)
    as [x [h1 [h2 [mu [E [Sm [Wm [Sx [Dx [Ex [E1 [S1 [W1 [E2 [S2 [W2 E3]]]]]]]]]]]]]]]].
  assert (Nx : In NaN (torch.data x))
    by exact (div_state_scale_NaN inputs x batch Hs Hw Hnan Dx).
  assert (Wx : torch.wf x) by exact (div_state_scale_wf inputs x Hw Ex).
  destruct (Linear_forward_ok _ x batch 8 64 H1 Sx) as [h1' [E1' [_ [_ D1]]]].
  rewrite E1 in E1'. injection E1' as <-.
  assert (N1 : In NaN (torch.data h1)).
  { apply (Linear_forward_NaN (Actor.fc1 a) x h1 batch 8 64); auto. lia. }
  destruct (Linear_forward_ok _ (nn.tanh h1) batch 64 64 H2 S1) as [h2' [E2' [_ [_ D2]]]].
  rewrite E2 in E2'. injection E2' as <-.
  assert (N2 : In NaN (torch.data h2)).
  { apply (Linear_forward_NaN (Actor.fc2 a) (nn.tanh h1) h2 batch 64 64); auto.
    - lia.
    - now apply tanh_wf.
    - now apply tanh_NaN. }
  destruct (Linear_forward_ok _ (nn.tanh h2) batch 64 n H3 S2) as [mu' [E3' [_ [_ D3]]]].
  rewrite E3 in E3'. injection E3' as <-.
  assert (N3 : In NaN (torch.data mu)).
  { apply (Linear_forward_NaN (Actor.mu a) (nn.tanh h2) mu batch 64 n); auto.
    - now apply tanh_wf.
    - now apply tanh_NaN. }
  rewrite E. unfold normal.Normal.init.
  change (torch.shape (torch.exp (Actor.log_std a)))
    with (torch.shape (Actor.log_std a)).
  rewrite Sm, Hl, broadcast_log_std. cbn [torch.data].
  rewrite (broadcast_loc mu batch n Sm Wm).
  now rewrite (forallb_real_NaN _ N3).
Qed.

(** X24: a NaN anywhere in a batch of states does not stop [Critic.forward]:
    it returns values, one of which at least is NaN. *)
Theorem Critic_forward_nan_state (c : Critic.instance) (inputs : torch.Tensor)
    (batch : list nat) :
  linear_layer 8 64 (Critic.fc1 c) ->
  linear_layer 64 64 (Critic.fc2 c) ->
  linear_layer 64 1 (Critic.value c) ->
  torch.shape inputs = batch ++ [8%nat] ->
  torch.wf inputs ->
  In NaN (torch.data inputs) ->
  exists v, Critic.forward c inputs = Ok v /\ In NaN (torch.data v).
Proof.
  intros H1 H2 H3 Hs Hw Hnan. unfold Critic.forward.
  destruct (div_state_scale_ok inputs batch Hs) as [x [Ex [Sx Dx]]].
  assert (Nx : In NaN (torch.data x))
    by exact (div_state_scale_NaN inputs x batch Hs Hw Hnan Dx).
  assert (Wx : torch.wf x) by exact (div_state_scale_wf inputs x Hw Ex).
  rewrite Ex. cbn [bind].
  destruct (Linear_forward_ok _ x batch 8 64 H1 Sx) as [h1 [E1 [S1 [W1 D1]]]].
  rewrite E1. cbn [bind].
  assert (N1 : In NaN (torch.data h1)).
  { apply (Linear_forward_NaN (Critic.fc1 c) x h1 batch 8 64); auto. lia. }
  destruct (Linear_forward_ok _ (nn.tanh h1) batch 64 64 H2 S1) as [h2 [E2 [S2 [W2 D2]]]].
  rewrite E2. cbn [bind].
  assert (N2 : In NaN (torch.data h2)).
  { apply (Linear_forward_NaN (Critic.fc2 c) (nn.tanh h1) h2 batch 64 64); auto.
    - lia.
    - now apply tanh_wf.
    - now apply tanh_NaN. }
  destruct (Linear_forward_ok _ (nn.tanh h2) batch 64 1 H3 S2) as [v [E3 [S3 [W3 D3]]]].
  exists v. split; [exact E3|].
  apply (Linear_forward_NaN (Critic.value c) (nn.tanh h2) v batch 64 1); auto.
  - now apply tanh_wf.
  - now apply tanh_NaN.
Qed.

(** *** Finite states and parameters *)

Lemma In_zip_with {A B C} (f : A -> B -> C) (l : list A) (m : list B) (z : C) :
  In z (zip_with f l m) -> exists a b, In a l /\ In b m /\ z = f a b.
Proof.
  revert m. induction l as [|a l IH]; intros [|b m] H; try destruct H.
  - exists a, b. subst z. repeat split; now left.
  - destruct (IH _ H) as [a' [b' [Ha [Hb ->]]]].
    exists a', b'. repeat split; now right.
Qed.

Lemma In_rows (t : torch.Tensor) (r : list float) :
  finite_tensor t -> In r (torch.rows t) ->
  Forall (fun x => Float.is_finite x = true) r.
Proof.
  unfold finite_tensor, torch.rows. intros Ht Hr.
  rewrite Forall_forall in *. intros x Hx.
  apply Ht. exact (chunks_incl _ _ _ _ _ Hr Hx).
Qed.

Lemma div_state_scale_finite (inputs x : torch.Tensor) (s : list nat) :
  finite_tensor inputs ->
  torch.data x
  = zip_with Float.div (torch.broadcast_to inputs s)
                       (torch.broadcast_to state_scale s) ->
  finite_tensor x.
Proof.
  unfold finite_tensor. intros Hi ->. rewrite Forall_forall in *.
  intros z Hz. apply In_zip_with in Hz. destruct Hz as [u [v [Hu [Hv ->]]]].
  apply expand_incl in Hu. apply expand_incl in Hv.
  specialize (Hi u Hu). destruct u as [r| | |]; try discriminate.
  cbn [state_scale torch.data In] in Hv.
  repeat (destruct Hv as [<- | Hv];
          [cbn [Float.div]; rewrite Rsign_pos by lra; reflexivity|]).
  destruct Hv.
Qed.

Lemma Linear_forward_finite (l : nn.Linear.instance) (x y : torch.Tensor) :
  finite_tensor (nn.Linear.weight l) -> finite_tensor (nn.Linear.bias l) ->
  finite_tensor x ->
  torch.data y
  = concat (map (fun r =>
                   zip_with (fun w b => Float.add (torch.dot r w) b)
                            (torch.rows (nn.Linear.weight l))
                            (torch.data (nn.Linear.bias l)))
                (torch.rows x)) ->
  finite_tensor y.
Proof.
  intros Hw Hb Hx Hy. unfold finite_tensor. rewrite Hy.
  apply Forall_forall. intros z Hz.
  apply in_concat in Hz. destruct Hz as [g [Hg Hz]].
  apply in_map_iff in Hg. destruct Hg as [r [<- Hr]].
  apply In_zip_with in Hz. destruct Hz as [w [b [Hw' [Hb' ->]]]].
  destruct (finite_entries _ (In_rows _ _ Hx Hr)) as [rs ->].
  destruct (finite_entries _ (In_rows _ _ Hw Hw')) as [ws ->].
  rewrite dot_finite.
  unfold finite_tensor in Hb. rewrite Forall_forall in Hb.
  specialize (Hb b Hb'). now destruct b.
Qed.

Lemma tanh_finite (t : torch.Tensor) : finite_tensor t -> finite_tensor (nn.tanh t).
Proof.
  unfold finite_tensor, nn.tanh, torch.unop. cbn [torch.data]. intros H.
  apply Forall_map. eapply Forall_impl; [|exact H].
  intros x Hx. now destruct x.
Qed.

(** With finite states and parameters the validation of the distribution
    passes (finite entries being exact reals). *)
Lemma Actor_forward_finite (a : Actor.instance) (inputs : torch.Tensor)
    (batch : list nat) (n : nat) :
  linear_layer 8 64 (Actor.fc1 a) ->
  linear_layer 64 64 (Actor.fc2 a) ->
  linear_layer 64 n (Actor.mu a) ->
  torch.shape (Actor.log_std a) = [1%nat; n] ->
  torch.shape inputs = batch ++ [8%nat] ->
  finite_tensor (nn.Linear.weight (Actor.fc1 a)) ->
  finite_tensor (nn.Linear.bias (Actor.fc1 a)) ->
  finite_tensor (nn.Linear.weight (Actor.fc2 a)) ->
  finite_tensor (nn.Linear.bias (Actor.fc2 a)) ->
  finite_tensor (nn.Linear.weight (Actor.mu a)) ->
  finite_tensor (nn.Linear.bias (Actor.mu a)) ->
  finite_tensor (Actor.log_std a) ->
  finite_tensor inputs ->
  exists d, Actor.forward a inputs = Ok d.
Proof.
  intros H1 H2 H3 Hl Hs F1w F1b F2w F2b F3w F3b Fl Fi.
  destruct (Actor_forward_mu a inputs batch n H1 H2 H3 Hs)
    as [x [h1 [h2 [mu [E [Sm [Wm [Sx [Dx [Ex [E1 [S1 [W1 [E2 [S2 [W2 E3]]]]]]]]]]]]]]]].
  assert (Fx : finite_tensor x) by exact (div_state_scale_finite _ _ _ Fi Dx).
  destruct (Linear_forward_ok _ x batch 8 64 H1 Sx) as [h1' [E1' [_ [_ D1]]]].
  rewrite E1 in E1'. injection E1' as <-.
  assert (Fh1 : finite_tensor h1) by exact (Linear_forward_finite _ _ _ F1w F1b Fx D1).
  destruct (Linear_forward_ok _ (nn.tanh h1) batch 64 64 H2 S1) as [h2' [E2' [_ [_ D2]]]].
  rewrite E2 in E2'. injection E2' as <-.
  assert (Fh2 : finite_tensor h2)
    by exact (Linear_forward_finite _ _ _ F2w F2b (tanh_finite _ Fh1) D2).
  destruct (Linear_forward_ok _ (nn.tanh h2) batch 64 n H3 S2) as [mu' [E3' [_ [_ D3]]]].
  rewrite E3 in E3'. injection E3' as <-.
  assert (Fmu : finite_tensor mu)
    by exact (Linear_forward_finite _ _ _ F3w F3b (tanh_finite _ Fh2) D3).
  rewrite E. unfold normal.Normal.init.
  change (torch.shape (torch.exp (Actor.log_std a)))
    with (torch.shape (Actor.log_std a)).
  rewrite Sm, Hl, broadcast_log_std. cbn [torch.data].
  assert (Hr : forallb normal.Normal.real
                 (torch.broadcast_to mu (torch.pad 2 (batch ++ [n]))) = true).
  { apply forallb_forall. intros z Hz. apply expand_incl in Hz.
    unfold finite_tensor in Fmu. rewrite Forall_forall in Fmu.
    specialize (Fmu z Hz). now destruct z. }
  assert (Hp : forallb normal.Normal.positive
                 (torch.broadcast_to (torch.exp (Actor.log_std a))
                    (torch.pad 2 (batch ++ [n]))) = true).
  { apply forallb_forall. intros z Hz. apply expand_incl in Hz.
    unfold torch.exp, torch.unop in Hz. cbn [torch.data] in Hz.
    apply in_map_iff in Hz. destruct Hz as [u [<- Hu]].
    unfold finite_tensor in Fl. rewrite Forall_forall in Fl.
    specialize (Fl u Hu). destruct u as [r| | |]; try discriminate.
    cbn [Float.exp normal.Normal.positive].
    destruct (Rlt_dec 0 (exp r)) as [_ | Hn]; [reflexivity|].
    exfalso. apply Hn, exp_pos. }
  rewrite Hr, Hp. eexists. reflexivity.
Qed.

Lemma Linear_init_finite (i o : nat) (w b : nat -> float) :
  (forall k, Float.is_finite (w k) = true) ->
  (forall k, Float.is_finite (b k) = true) ->
  finite_tensor (nn.Linear.weight (nn.Linear.init i o w b))
  /\ finite_tensor (nn.Linear.bias (nn.Linear.init i o w b)).
Proof.
  intros Hw Hb. unfold finite_tensor, nn.Linear.init.
  cbn [nn.Linear.weight nn.Linear.bias torch.data].
  split; apply Forall_map, Forall_forall; intros k _; auto.
Qed.

(** A freshly built actor on a batch of finite states returns a
    distribution. *)
Lemma Actor_init_forward (n : nat) (values : nat -> nat -> float)
    (inputs : torch.Tensor) (batch : list nat) :
  (forall p k, Float.is_finite (values p k) = true) ->
  torch.shape inputs = batch ++ [8%nat] ->
  finite_tensor inputs ->
  exists d, Actor.forward (Actor.init 8 n values) inputs = Ok d.
Proof.
  intros Hv Hs Hi.
  apply (Actor_forward_finite _ inputs batch n); try assumption.
  - apply Linear_init_layer.
  - apply Linear_init_layer.
  - apply Linear_init_layer.
  - reflexivity.
  - apply Linear_init_finite; intros; apply Hv.
  - apply Linear_init_finite; intros; apply Hv.
  - apply Linear_init_finite; intros; apply Hv.
  - apply Linear_init_finite; intros; apply Hv.
  - apply Linear_init_finite; intros; apply Hv.
  - apply Linear_init_finite; intros; apply Hv.
  - unfold finite_tensor, Actor.init. cbn [Actor.log_std torch.data].
    apply Forall_forall. intros x Hx. apply repeat_spec in Hx. now subst x.
Qed.

(** Every standard deviation of a returned distribution is the exponential
    of an entry of [log_std]. *)
Lemma Actor_forward_scale_entries (a : Actor.instance) (inputs : torch.Tensor)
    (d : normal.Normal.instance) :
  Actor.forward a inputs = Ok d ->
  Forall (fun x => exists u, In u (torch.data (Actor.log_std a)) /\ x = Float.exp u)
         (torch.data (normal.Normal.scale d)).
Proof.
  unfold Actor.forward. intros H.
  destruct (nn.div inputs state_scale) as [x|]; [|discriminate].
  cbn [bind] in H.
  destruct (nn.Linear.forward _ x) as [h1|]; [|discriminate].
  cbn [bind] in H.
  destruct (nn.Linear.forward _ (nn.tanh h1)) as [h2|]; [|discriminate].
  cbn [bind] in H.
  destruct (nn.Linear.forward _ (nn.tanh h2)) as [mu|]; [|discriminate].
  cbn [bind] in H. unfold normal.Normal.init in H.
  destruct (torch.broadcast_shapes _ _) as [s|]; [|discriminate].
  destruct (_ && _); [|discriminate].
  injection H as <-. cbn [normal.Normal.scale torch.data].
  apply Forall_forall. intros z Hz. apply expand_incl in Hz.
  unfold torch.exp, torch.unop in Hz. cbn [torch.data] in Hz.
  apply in_map_iff in Hz. destruct Hz as [u [<- Hu]]. now exists u.
Qed.

Lemma Actor_init_scale_entry (n_states n_actions : nat)
    (values : nat -> nat -> float) (x : float) :
  (exists u, In u (torch.data (Actor.log_std (Actor.init n_states n_actions values)))
             /\ x = Float.exp u) ->
  x = Fin 1.
Proof.
  intros [u [Hu ->]]. unfold Actor.init in Hu. cbn [Actor.log_std torch.data] in Hu.
  apply repeat_spec in Hu. subst u. cbn [Float.exp]. now rewrite exp_0.
Qed.

(** X25: a freshly built actor has standard deviation 1 for every action:
    [log_std] starts at zero, so every entry of the scale of a distribution
    it returns is exp(0) = 1, whatever the states and the first weights. *)
Theorem Actor_init_unit_std (n_states n_actions : nat)
    (values : nat -> nat -> float) (inputs : torch.Tensor)
    (d : normal.Normal.instance) :
  Actor.forward (Actor.init n_states n_actions values) inputs = Ok d ->
  Forall (fun x => x = Fin 1) (torch.data (normal.Normal.scale d)).
Proof.
  intros H. eapply Forall_impl; [|exact (Actor_forward_scale_entries _ _ _ H)].
  intros x. apply Actor_init_scale_entry.
Qed.

(** The scale of a returned distribution holds as many entries as its shape
    says. *)
Lemma Actor_forward_scale_length (a : Actor.instance) (inputs : torch.Tensor)
    (batch : list nat) (n : nat) (d : normal.Normal.instance) :
  linear_layer 8 64 (Actor.fc1 a) ->
  linear_layer 64 64 (Actor.fc2 a) ->
  linear_layer 64 n (Actor.mu a) ->
  torch.shape (Actor.log_std a) = [1%nat; n] ->
  torch.wf (Actor.log_std a) ->
  torch.shape inputs = batch ++ [8%nat] ->
  Actor.forward a inputs = Ok d ->
  length (torch.data (normal.Normal.scale d)) = (torch.numel batch * n)%nat.
Proof.
  intros H1 H2 H3 Hl Hlw Hs H.
  destruct (Actor_forward_mu a inputs batch n H1 H2 H3 Hs)
    as [x [h1 [h2 [mu [E [Sm _]]]]]].
  rewrite E in H. unfold normal.Normal.init in H.
  change (torch.shape (torch.exp (Actor.log_std a)))
    with (torch.shape (Actor.log_std a)) in H.
  rewrite Sm, Hl in H.
  pose proof (broadcast_log_std batch n) as Hb. rewrite Hb in H.
  cbn [torch.data] in H.
  destruct (forallb normal.Normal.real _ && forallb normal.Normal.positive _);
    [|discriminate].
  injection H as <-. cbn [normal.Normal.scale torch.data].
  unfold torch.broadcast_shapes in Hb.
  destruct (bdims_expands _ _ _ Hb) as [_ Eb].
  assert (Hr : length (torch.pad 2 (batch ++ [n]))
               = Nat.max (length (batch ++ [n])) (length [1%nat; n])).
  { rewrite (bdims_length _ _ _ Hb), pad_length. lia. }
  unfold torch.broadcast_to.
  change (torch.shape (torch.exp (Actor.log_std a)))
    with (torch.shape (Actor.log_std a)).
  rewrite Hl, Hr, (expand_length _ _ _ Eb).
  - rewrite numel_pad, numel_app. simpl. lia.
  - rewrite numel_pad. unfold torch.exp, torch.unop. cbn [torch.data].
    rewrite length_map. unfold torch.wf in Hlw. now rewrite Hlw, Hl.
Qed.

(** X26: the entropy loss of the distribution a freshly built actor returns
    for a non-empty batch of states is the constant
    -weight * (0.5 + 0.5 * log(2 * pi)): the standard deviations are all 1,
    so neither the states nor the first weights enter. *)
Theorem EntropyActorLoss_fresh_actor (weight : R) (n_actions : nat)
    (values : nat -> nat -> float) (inputs : torch.Tensor) (batch : list nat)
    (d : normal.Normal.instance) :
  (0 < n_actions)%nat ->
  torch.shape inputs = batch ++ [8%nat] ->
  (0 < torch.numel batch)%nat ->
  Actor.forward (Actor.init 8 n_actions values) inputs = Ok d ->
  EntropyActorLoss.forward (EntropyActorLoss.init weight)
    (normal.Normal.entropy d)
  = Fin (- weight * (1 / 2 + 1 / 2 * ln (2 * PI))).
Proof.
  intros Hn Hs Hb H.
  pose proof (Actor_forward_scale_entries _ _ _ H) as Hones.
  assert (Hlen : length (torch.data (normal.Normal.scale d))
                 = (torch.numel batch * n_actions)%nat).
  { apply (Actor_forward_scale_length (Actor.init 8 n_actions values) inputs);
      try assumption; try apply Linear_init_layer; try reflexivity.
    unfold torch.wf, Actor.init. cbn [Actor.log_std torch.data torch.shape].
    rewrite repeat_length. simpl. lia. }
  unfold EntropyActorLoss.forward, EntropyActorLoss.init, torch.mean,
    normal.Normal.entropy, torch.unop.
  cbn [EntropyActorLoss.weight torch.data].
  rewrite (Float_mean_constant (1 / 2 + 1 / 2 * ln (2 * PI))).
  - reflexivity.
  - apply Forall_map. eapply Forall_impl; [|exact Hones].
    intros x Hx. cbv beta. rewrite (Actor_init_scale_entry _ _ _ _ Hx).
    cbn [Float.log]. rewrite Rsign_pos by lra. rewrite ln_1.
    cbn [Float.add]. f_equal. lra.
  - intros Hnil. apply (f_equal (@length float)) in Hnil.
    rewrite length_map, Hlen in Hnil. simpl in Hnil. nia.
Qed.

Lemma Sample_one_state_finite : finite_tensor Sample.one_state.
Proof. unfold finite_tensor. cbn. repeat constructor. Qed.

Lemma Actor_forward_shape_errors_witness :
  Actor.forward (Actor.init 4 2 Sample.half_values) (Sample.vec [1; 2; 3; 4])
  = Raise RuntimeError.
Proof.
  apply (Actor_forward_shape_errors _ _ 64%nat 4%nat); [reflexivity|].
  left. lia.
Defined.

Lemma Critic_forward_shape_errors_witness :
  Critic.forward (Critic.init 8 Sample.half_values) (Sample.vec [1; 2; 3; 4])
  = Raise RuntimeError.
Proof.
  apply (Critic_forward_shape_errors _ _ 64%nat 8%nat); [reflexivity|].
  right. exists [], 4%nat. split; [reflexivity | split; lia].
Defined.

Lemma Critic_forward_shape_witness :
  exists v,
    Critic.forward (Critic.init 8 Sample.half_values) Sample.three_states = Ok v
    /\ torch.shape v = [3%nat; 1%nat]
    /\ length (torch.data v) = 3%nat.
Proof.
  apply (Critic_forward_shape (Critic.init 8 Sample.half_values)
           Sample.three_states [3%nat]).
  - apply Linear_init_layer.
  - apply Linear_init_layer.
  - apply Linear_init_layer.
  - reflexivity.
Defined.

Lemma Actor_forward_distribution_witness :
  exists d,
    Actor.forward (Actor.init 8 2 Sample.half_values) Sample.one_state = Ok d
    /\ torch.shape (normal.Normal.loc d) = [1%nat; 2%nat]
    /\ torch.shape (normal.Normal.scale d) = [1%nat; 2%nat]
    /\ Forall (fun x => Float.is_nan x = false) (torch.data (normal.Normal.loc d))
    /\ Forall (fun x => normal.Normal.positive x = true)
              (torch.data (normal.Normal.scale d)).
Proof.
  destruct (Actor_init_forward 2 Sample.half_values Sample.one_state []
              (fun _ _ => eq_refl) eq_refl Sample_one_state_finite) as [d Hd].
  exists d. split; [exact Hd|].
  exact (Actor_forward_distribution (Actor.init 8 2 Sample.half_values)
           Sample.one_state [] 2%nat d
           (Linear_init_layer _ _ _ _) (Linear_init_layer _ _ _ _)
           (Linear_init_layer _ _ _ _) eq_refl eq_refl Hd).
Defined.

Lemma Actor_forward_nan_state_witness :
  Actor.forward (Actor.init 8 2 Sample.half_values) Sample.nan_state
  = Raise ValueError.
Proof.
  apply (Actor_forward_nan_state (Actor.init 8 2 Sample.half_values)
           Sample.nan_state [] 2%nat).
  - apply Linear_init_layer.
  - apply Linear_init_layer.
  - apply Linear_init_layer.
  - lia.
  - reflexivity.
  - reflexivity.
  - reflexivity.
  - right. left. reflexivity.
Defined.

Lemma Critic_forward_nan_state_witness :
  exists v,
    Critic.forward (Critic.init 8 Sample.half_values) Sample.nan_state = Ok v
    /\ In NaN (torch.data v).
Proof.
  apply (Critic_forward_nan_state (Critic.init 8 Sample.half_values)
           Sample.nan_state []).
  - apply Linear_init_layer.
  - apply Linear_init_layer.
  - apply Linear_init_layer.
  - reflexivity.
  - reflexivity.
  - right. left. reflexivity.
Defined.

Lemma Actor_init_unit_std_witness :
  exists d,
    Actor.forward (Actor.init 8 2 Sample.half_values) Sample.one_state = Ok d
    /\ Forall (fun x => x = Fin 1) (torch.data (normal.Normal.scale d)).
Proof.
  destruct (Actor_init_forward 2 Sample.half_values Sample.one_state []
              (fun _ _ => eq_refl) eq_refl Sample_one_state_finite) as [d Hd].
  exists d. split; [exact Hd|].
  exact (Actor_init_unit_std 8 2 Sample.half_values Sample.one_state d Hd).
Defined.

Lemma EntropyActorLoss_fresh_actor_witness :
  exists d,
    Actor.forward (Actor.init 8 2 Sample.half_values) Sample.one_state = Ok d
    /\ EntropyActorLoss.forward (EntropyActorLoss.init (1 / 100))
         (normal.Normal.entropy d)
       = Fin (- (1 / 100) * (1 / 2 + 1 / 2 * ln (2 * PI))).
Proof.
  destruct (Actor_init_forward 2 Sample.half_values Sample.one_state []
              (fun _ _ => eq_refl) eq_refl Sample_one_state_finite) as [d Hd].
  exists d. split; [exact Hd|].
  apply (EntropyActorLoss_fresh_actor (1 / 100) 2 Sample.half_values
           Sample.one_state [] d); [lia | reflexivity | simpl; lia | exact Hd].
Defined.
